(** * PhotoFilter Pro: credential verification, token rotation and share links

    A shallow embedding of the authentication subsystem of [server.js] and of
    the [UserRepository] of [dynamodb.js].

    - The DynamoDB table is a finite map from the sort key [username] to the
      remaining attributes of the item; every [docClient.send] is one atomic
      command against it and may throw (the [net] oracle of the world).
    - An [async] handler is a program whose only visible events are its
      [docClient.send] calls, so that one definition of a handler gives both
      its sequential run and its interleavings with another request.
    - [jsonwebtoken], [bcryptjs], [uuid], [nodemailer] and the clock are not
      code of the repository: tokens and hashes are symbolic terms, and the
      clock reading, the random values and the mail outcome of a request are
      inputs of the handler. *)

From stdpp Require Import base option list strings gmap sorting.
From Stdlib Require Import ZArith Lia.

Local Open Scope string_scope.
Local Open Scope Z_scope.

(** ** JavaScript exceptions *)

Record Error := mkError { name : string; message : string }.

Inductive Result (A : Type) : Type :=
| Ok (a : A)
| Throw (e : Error).
Arguments Ok {A} a.
Arguments Throw {A} e.

#[global] Instance Error_eq_dec : EqDecision Error.
Proof. solve_decision. Defined.

(** ** jsonwebtoken (HS256)

    [jwt.sign(payload, secret, {expiresIn})] adds [iat], the clock in whole
    seconds, and [exp = iat + expiresIn], and signs the serialised claims with
    the secret; the signature is a function of the secret and of the claims.
    A compact token is therefore the term [Signed secret claims]; every other
    string is [Opaque]. [jwt.verify] checks the signature first and the expiry
    second. *)
Module Jwt.

Record Payload := mkPayload {
  p_id : option string;
  p_username : string;
  p_type : option string }.

Record Claims := mkClaims { payload : Payload; iat : Z; exp : Z }.

Inductive Token :=
| Signed (key : string) (c : Claims)
| Opaque (s : string).

(** [Math.floor(Date.now() / 1000)] *)
Definition seconds (now : Z) : Z := now / 1000.

Definition sign (p : Payload) (secret : string) (expiresIn : Z) (now : Z) : Token :=
  Signed secret {| payload := p; iat := seconds now; exp := seconds now + expiresIn |}.

Definition TokenExpiredError : Error := mkError "TokenExpiredError" "jwt expired".
Definition JsonWebTokenError (msg : string) : Error := mkError "JsonWebTokenError" msg.

Definition verify (tok : Token) (secret : string) (now : Z) : Result Claims :=
  match tok with
  | Opaque _ => Throw (JsonWebTokenError "jwt malformed")
  | Signed key c =>
      if negb (String.eqb key secret) then Throw (JsonWebTokenError "invalid signature")
      else if exp c <=? seconds now then Throw TokenExpiredError
      else Ok c
  end.

End Jwt.
Export Jwt.

#[global] Instance Payload_eq_dec : EqDecision Payload.
Proof. solve_decision. Defined.
#[global] Instance Claims_eq_dec : EqDecision Claims.
Proof. solve_decision. Defined.
#[global] Instance Token_eq_dec : EqDecision Token.
Proof. solve_decision. Defined.

(** [!value] on a string-valued field: [undefined], [null] and [''] are falsy. *)
Definition truthy (o : option string) : option string :=
  match o with
  | Some s => if String.eqb s "" then None else Some s
  | None => None
  end.

Definition present (o : option Token) : option Token :=
  match o with
  | Some (Opaque "") => None
  | _ => o
  end.

(** ** bcryptjs: a salted one-way hash, compared by re-hashing

    The key schedule of bcrypt reads 72 bytes of key material: the bytes of
    the password followed by a NUL, repeated for as long as it takes. Bytes
    of the password past the 72nd are never read. A hash is a symbolic term
    of the salt and of that key material; a string is the sequence of the
    bytes of its UTF-8 form. *)
Definition bcrypt_key (password : string) : list Ascii.ascii :=
  let key := (String.list_ascii_of_string password ++ [Ascii.zero])%list in
  take 72 (concat (replicate 72 key)).
Arguments bcrypt_key : simpl never.

Record PwHash := mkPwHash { pw_salt : string; pw_key : list Ascii.ascii }.

#[global] Instance PwHash_eq_dec : EqDecision PwHash.
Proof. solve_decision. Defined.

Definition bcrypt_hash (password salt : string) : PwHash :=
  mkPwHash salt (bcrypt_key password).
Definition bcrypt_compare (password : string) (h : PwHash) : bool :=
  bool_decide (bcrypt_key password = pw_key h).

(** A password that the key schedule reads whole and only once through:
    shorter than 72 bytes and without a NUL byte. *)
Definition plain (password : string) : Prop :=
  (String.length password < 72)%nat /\
  Ascii.zero ∉ String.list_ascii_of_string password.

(** ** The user table (dynamodb.js) *)

(** Attributes of an item besides its keys. An attribute that is missing or
    [null] is [None]; [createdAt] is the millisecond instant that the stored
    ISO string denotes. *)
Record Attrs := mkAttrs {
  id : option string;
  password : option PwHash;
  email : option string;
  createdAt : option Z;
  refreshTokens : option (list Token);
  emailVerified : option bool;
  emailVerificationToken : option string }.

Record Item := mkItem { username : string; attrs : Attrs }.

#[global] Instance Attrs_eq_dec : EqDecision Attrs.
Proof. solve_decision. Defined.
#[global] Instance Item_eq_dec : EqDecision Item.
Proof. solve_decision. Defined.

Definition no_attrs : Attrs := mkAttrs None None None None None None None.

(** [SET #attr = :val] clauses used by the repository. *)
Inductive Assign :=
| SetRefreshTokens (l : list Token)
| SetEmailVerified (b : bool)
| SetEmailVerificationToken (v : option string).

Inductive UpdateExpression :=
| SET (l : list Assign)
| SET_list_append (tok : Token).

Definition assign (a : Attrs) (u : Assign) : Attrs :=
  match u with
  | SetRefreshTokens l =>
      mkAttrs (id a) (password a) (email a) (createdAt a) (Some l)
              (emailVerified a) (emailVerificationToken a)
  | SetEmailVerified b =>
      mkAttrs (id a) (password a) (email a) (createdAt a) (refreshTokens a)
              (Some b) (emailVerificationToken a)
  | SetEmailVerificationToken v =>
      mkAttrs (id a) (password a) (email a) (createdAt a) (refreshTokens a)
              (emailVerified a) v
  end.

Definition update (a : Attrs) (u : UpdateExpression) : Attrs :=
  match u with
  | SET l => foldl assign a l
  | SET_list_append tok =>
      assign a (SetRefreshTokens (default [] (refreshTokens a) ++ [tok]))
  end.

(** The commands sent through [docClient], indexed by what they return. *)
Inductive Command : Type -> Type :=
| GetCommand (key : string) : Command (option Item)
| PutCommand (it : Item) : Command unit
| UpdateCommand (key : string) (u : UpdateExpression) : Command Item
| ScanCommand (tok : string) (limit : nat) : Command (list Item).

(** All items share the partition key, so a scan meets them by sort key. *)
Definition key_le (x y : string * Attrs) : Prop := String.leb x.1 y.1 = true.

#[global] Instance key_le_dec x y : Decision (key_le x y).
Proof. unfold key_le. apply _. Defined.

Definition scan_order (t : gmap string Attrs) : list Item :=
  (fun kv => mkItem kv.1 kv.2) <$> merge_sort key_le (map_to_list t).

Definition holds_token (tok : string) (it : Item) : Prop :=
  emailVerificationToken (attrs it) = Some tok.

#[global] Instance holds_token_dec tok it : Decision (holds_token tok it).
Proof. unfold holds_token. apply _. Defined.

(** What a command does to the table when the service accepts it:
    - [PutCommand] carries [attribute_not_exists(username)];
    - [UpdateCommand] edits the item or creates it, and returns [ALL_NEW];
    - [ScanCommand] evaluates at most [Limit] items and filters those. *)
Definition exec {R} (c : Command R) (t : gmap string Attrs) : Result R * gmap string Attrs :=
  match c in Command R return Result R * gmap string Attrs with
  | GetCommand k => (Ok (mkItem k <$> t !! k), t)
  | PutCommand it =>
      match t !! username it with
      | Some _ => (Throw (mkError "ConditionalCheckFailedException"
                                  "The conditional request failed"), t)
      | None => (Ok tt, <[username it := attrs it]> t)
      end
  | UpdateCommand k u =>
      let a := update (default no_attrs (t !! k)) u in
      (Ok (mkItem k a), <[k := a]> t)
  | ScanCommand tok limit =>
      (Ok (filter (holds_token tok) (take limit (scan_order t))), t)
  end.

(** The world of a request: the table and, for each coming [docClient.send],
    whether it throws ([Some e]) or reaches the table ([None], also once the
    list is used up). *)
Record World := mkWorld { table : gmap string Attrs; net : list (option Error) }.

Definition perform {R} (c : Command R) (w : World) : Result R * World :=
  match net w with
  | Some e :: n => (Throw e, mkWorld (table w) n)
  | None :: n => let '(r, t) := exec c (table w) in (r, mkWorld t n)
  | [] => let '(r, t) := exec c (table w) in (r, mkWorld t [])
  end.

(** The next [send] of a world: the exception it raises, if any, and the
    oracle that is left afterwards. *)
Definition fault (w : World) : option Error :=
  match net w with
  | Some e :: _ => Some e
  | _ => None
  end.

Definition after (t : gmap string Attrs) (w : World) : World := mkWorld t (tail (net w)).

(** The refresh tokens recorded for a user; none for a missing user or list. *)
Definition stored_tokens (t : gmap string Attrs) (k : string) : list Token :=
  default [] (t !! k ≫= refreshTokens).

(** ** Asynchronous programs over the table *)

Inductive Prog (A : Type) : Type :=
| Ret (a : A)
| Send {R : Type} (c : Command R) (k : Result R -> Prog A).
Arguments Ret {A} a.
Arguments Send {A R} c k.

Fixpoint run {A} (p : Prog A) (w : World) : A * World :=
  match p with
  | Ret a => (a, w)
  | Send c k => let '(r, w') := perform c w in run (k r) w'
  end.

(** Programs that may throw. *)
Definition Async (A : Type) : Type := Prog (Result A).

Definition ret {A} (a : A) : Async A := Ret (Ok a).
Definition throw {A} (e : Error) : Async A := Ret (Throw e).
Definition send {R} (c : Command R) : Async R := Send c Ret.

Fixpoint bind {A B} (m : Async A) (f : A -> Async B) : Async B :=
  match m with
  | Ret (Ok a) => f a
  | Ret (Throw e) => Ret (Throw e)
  | Send c k => Send c (fun r => bind (k r) f)
  end.

Fixpoint try_catch {A} (m : Async A) (h : Error -> Async A) : Async A :=
  match m with
  | Ret (Ok a) => Ret (Ok a)
  | Ret (Throw e) => h e
  | Send c k => Send c (fun r => try_catch (k r) h)
  end.

(** A route handler: its [catch] block answers every exception. *)
Fixpoint handle {A} (m : Async A) (h : Error -> A) : Prog A :=
  match m with
  | Ret (Ok a) => Ret a
  | Ret (Throw e) => Ret (h e)
  | Send c k => Send c (fun r => handle (k r) h)
  end.

Notation "'await' x <- m ; k" := (bind m (fun x => k))
  (at level 10, x name, m at level 100, k at level 200).
Notation "'await_' m ; k" := (bind m (fun _ => k))
  (at level 10, m at level 100, k at level 200).

(** Two requests in flight: the event loop resumes one of them at each
    completed [send]; [true] resumes the first. A request that has answered
    ignores its turns. *)
Fixpoint par {A B} (sched : list bool) (p : Prog A) (q : Prog B) (w : World)
  : Prog A * Prog B * World :=
  match sched with
  | [] => (p, q, w)
  | true :: s =>
      match p with
      | Ret _ => par s p q w
      | Send c k => let '(r, w') := perform c w in par s (k r) q w'
      end
  | false :: s =>
      match q with
      | Ret _ => par s p q w
      | Send c k => let '(r, w') := perform c w in par s p (k r) w'
      end
  end.

(** ** UserRepository (dynamodb.js) *)
Module UserRepository.

Definition getUserByUsername (username : string) : Async (option Item) :=
  try_catch (send (GetCommand username)) (fun error => throw error).

Definition createUser (userData : Item) : Async Item :=
  let a := attrs userData in
  let userItem :=
    mkItem (username userData)
      (mkAttrs (Some (default (username userData) (truthy (id a))))
               (password a)
               (Some (default "" (truthy (email a))))
               (createdAt a)
               (Some (default [] (refreshTokens a)))
               (Some (default false (emailVerified a)))
               (truthy (emailVerificationToken a))) in
  try_catch
    (await_ send (PutCommand userItem);
     ret userItem)
    (fun error =>
       if String.eqb (name error) "ConditionalCheckFailedException"
       then throw (mkError "Error" "Username already exists")
       else throw error).

Definition updateUser (username : string) (updates : list Assign) : Async Item :=
  try_catch (send (UpdateCommand username (SET updates))) (fun error => throw error).

Definition addRefreshToken (username : string) (refreshToken : Token) : Async Item :=
  try_catch (send (UpdateCommand username (SET_list_append refreshToken)))
            (fun error => throw error).

Definition removeRefreshToken (username : string) (refreshToken : Token)
  : Async (option Item) :=
  try_catch
    (await user <- getUserByUsername username;
     match user with
     | None => ret user
     | Some u =>
         match refreshTokens (attrs u) with
         | None => ret user
         | Some tokens =>
             let updatedTokens := filter (fun token => token <> refreshToken) tokens in
             if (length updatedTokens =? length tokens)%nat then ret user
             else
               await result <-
                 send (UpdateCommand username (SET [SetRefreshTokens updatedTokens]));
               ret (Some result)
         end
     end)
    (fun error => throw error).

Definition clearRefreshTokens (username : string) : Async Item :=
  try_catch (send (UpdateCommand username (SET [SetRefreshTokens []])))
            (fun error => throw error).

Definition hasRefreshToken (username : string) (refreshToken : Token) : Async bool :=
  try_catch
    (await user <- getUserByUsername username;
     match user with
     | None => ret false
     | Some u =>
         match refreshTokens (attrs u) with
         | None => ret false
         | Some tokens => ret (bool_decide (refreshToken ∈ tokens))
         end
     end)
    (fun error => ret false).

Definition getUserByVerificationToken (token : string) : Async (option Item) :=
  try_catch
    (await items <- send (ScanCommand token 1);
     ret (head items))
    (fun error => throw error).

End UserRepository.
Import UserRepository.

(** ** HTTP responses *)

#[warnings="-register-all"]
Inductive JValue :=
| JNull
| JBool (b : bool)
| JStr (s : string)
| JDate (ms : Z)
| JTok (t : Token)
| JObj (fields : list (string * JValue)).

Inductive Response :=
| Json (code : Z) (body : list (string * JValue))
| SendFile (contentType : string) (path : string).

Definition status (r : Response) : Z :=
  match r with
  | Json code _ => code
  | SendFile _ _ => 200
  end.

Fixpoint field (k : string) (body : list (string * JValue)) : option JValue :=
  match body with
  | [] => None
  | (k', v) :: rest => if String.eqb k k' then Some v else field k rest
  end.

Definition body_of (r : Response) : list (string * JValue) :=
  match r with
  | Json _ b => b
  | SendFile _ _ => []
  end.

Definition JOpt {A} (f : A -> JValue) (o : option A) : JValue :=
  match o with
  | Some a => f a
  | None => JNull
  end.

Definition failure (code : Z) (msg : string) : Response :=
  Json code [("success", JBool false); ("message", JStr msg)].

Definition failure_with (code : Z) (msg : string) (error : Error) : Response :=
  Json code [("success", JBool false); ("message", JStr msg);
             ("error", JStr (message error))].

(** ** Request-time inputs

    What one request reads from outside the program: the clock in
    milliseconds, the value of [uuidv4()], the salt drawn by [bcrypt.hash],
    whether the body of [sendVerificationEmail] ran to its [return true], the
    listing of the processed directory and which paths exist. *)
Record Env := mkEnv {
  Date_now : Z;
  uuidv4 : string;
  genSalt : string;
  sendMail_ok : bool;
  readdir : Result (list string);
  pathExists : string -> bool }.

(** The claims of an identity-provider token after [cognito.verifyToken]. *)
Record CognitoPayload := mkCognitoPayload {
  sub : string;
  cognito_username : option string;
  cp_username : option string;
  cp_email : option string;
  email_verified : option bool }.

(** [req.user] *)
Inductive ReqUser :=
| LegacyUser (c : Claims)
| CognitoUser (uid : string) (uname : option string) (mail : option string)
              (verified : option bool).

Definition req_username (u : ReqUser) : option string :=
  match u with
  | LegacyUser c => Some (p_username (payload c))
  | CognitoUser _ uname _ _ => uname
  end.

Inductive Middleware :=
| Next (user : ReqUser)
| Reply (r : Response).

Definition JWT_EXPIRES_IN : Z := 24 * 3600.
Definition REFRESH_TOKEN_EXPIRES_IN : Z := 7 * 24 * 3600.

(** A key that is [undefined] cannot be marshalled: the call throws. *)
Definition with_key {A} (k : option string) (f : string -> Async A) : Async A :=
  match k with
  | Some username => f username
  | None => throw (mkError "Error" "Pass options.removeUndefinedValues=true")
  end.

Section Server.

(** [process.env.JWT_SECRET || 'photofilter-pro-secret-key-2024'] *)
Variable JWT_SECRET : string.

(** [cognito]: [None] when [require('./cognito')] failed; otherwise what
    [cognito.verifyToken] answers for a token at the time of the request. *)
Variable cognito : option (Token -> Result CognitoPayload).

Definition access_token (uid : option string) (uname : string) (now : Z) : Token :=
  sign (mkPayload uid uname None) JWT_SECRET JWT_EXPIRES_IN now.

Definition refresh_token (uid : option string) (uname : string) (now : Z) : Token :=
  sign (mkPayload uid uname (Some "refresh")) JWT_SECRET REFRESH_TOKEN_EXPIRES_IN now.

Definition sendVerificationEmail (env : Env) (email username verificationToken : string)
  : bool := sendMail_ok env.

(** *** authenticateToken *)

Definition legacy_jwt (token : Token) (now : Z) : Middleware :=
  match verify token JWT_SECRET now with
  | Throw err =>
      let expired := String.eqb (name err) "TokenExpiredError" in
      let statusCode := if expired then 401 else 403 in
      Reply (failure_with statusCode
               (if expired then "Token expired" else "Invalid or expired token") err)
  | Ok user => Next (LegacyUser user)
  end.

Definition authenticateToken (authHeader : option (list Token)) (now : Z) : Middleware :=
  let token := present (h ← authHeader; h !! 1%nat) in
  match token with
  | None => Reply (failure 401 "Access token required")
  | Some token =>
      let viaCognito :=
        match cognito with
        | Some verifyToken =>
            match verifyToken token with
            | Ok p =>
                Some (CognitoUser (sub p)
                        (match truthy (cognito_username p) with
                         | Some u => Some u
                         | None => cp_username p
                         end)
                        (cp_email p) (email_verified p))
            | Throw cognitoError => None
            end
        | None => None
        end in
      match viaCognito with
      | Some user => Next user
      | None => legacy_jwt token now
      end
  end.

(** *** POST /api/register *)

Definition register (env : Env) (b_username b_password b_email : option string)
  : Prog Response :=
  handle
    (match truthy b_username, truthy b_password with
     | Some username, Some password =>
         await existingUser <- getUserByUsername username;
         match existingUser with
         | Some _ => ret (failure 409 "Username already exists")
         | None =>
             let hashedPassword := bcrypt_hash password (genSalt env) in
             let emailVerificationToken := uuidv4 env in
             let email := truthy b_email in
             let userData :=
               mkItem username
                 (mkAttrs (Some username) (Some hashedPassword)
                          (Some (default "" email)) (Some (Date_now env))
                          (Some []) (Some false) (Some emailVerificationToken)) in
             await_ createUser userData;
             let emailSent :=
               match email with
               | Some e => sendVerificationEmail env e username emailVerificationToken
               | None => false
               end in
             let reply (token refreshToken : JValue) :=
               Json 201
                 [("success", JBool true);
                  ("message",
                   JStr (if bool_decide (is_Some email)
                         then (if emailSent
                               then "User registered successfully. Please check your email to verify your account."
                               else "User registered successfully, but verification email could not be sent.")
                         else "User registered successfully"));
                  ("token", token);
                  ("refreshToken", refreshToken);
                  ("emailVerificationRequired", JBool (bool_decide (is_Some email)));
                  ("emailSent", JBool emailSent);
                  ("user", JObj [("id", JStr username);
                                 ("username", JStr username);
                                 ("email", JStr (default "" email));
                                 ("emailVerified", JBool false);
                                 ("createdAt", JDate (Date_now env))])] in
             if negb (bool_decide (is_Some email)) || emailSent then
               let token := access_token (Some username) username (Date_now env) in
               let refreshToken := refresh_token (Some username) username (Date_now env) in
               await_ addRefreshToken username refreshToken;
               ret (reply (JTok token) (JTok refreshToken))
             else ret (reply JNull JNull)
         end
     | _, _ => ret (failure 400 "Username and password are required")
     end)
    (fun error =>
       if String.eqb (message error) "Username already exists"
       then failure 409 "Username already exists"
       else failure_with 500 "Registration failed" error).

(** *** POST /api/login *)

Definition login (env : Env) (b_username b_password : option string) : Prog Response :=
  handle
    (match truthy b_username, truthy b_password with
     | Some uname, Some pw =>
         await user <- getUserByUsername uname;
         match user with
         | None => ret (failure 401 "Invalid credentials")
         | Some user =>
             await isValidPassword <-
               match password (attrs user) with
               | Some h => ret (bcrypt_compare pw h)
               | None => throw (mkError "Error" "Illegal arguments: string, undefined")
               end;
             if negb isValidPassword then ret (failure 401 "Invalid credentials")
             else
               let a := attrs user in
               let token := access_token (id a) (username user) (Date_now env) in
               let refreshToken := refresh_token (id a) (username user) (Date_now env) in
               await_ addRefreshToken uname refreshToken;
               ret (Json 200
                      [("success", JBool true);
                       ("message", JStr "Login successful");
                       ("token", JTok token);
                       ("refreshToken", JTok refreshToken);
                       ("user", JObj [("id", JOpt JStr (id a));
                                      ("username", JStr (username user));
                                      ("email", JOpt JStr (email a));
                                      ("createdAt", JOpt JDate (createdAt a))])])
         end
     | _, _ => ret (failure 400 "Username and password are required")
     end)
    (fun error => failure_with 500 "Login failed" error).

(** *** GET /api/verify-email *)

Definition verify_email (env : Env) (q_token : option string) : Prog Response :=
  handle
    (match truthy q_token with
     | None => ret (failure 400 "Verification token is required")
     | Some token =>
         await userToVerify <- getUserByVerificationToken token;
         match userToVerify with
         | None => ret (failure 404 "Invalid or expired verification token")
         | Some userToVerify =>
             let a := attrs userToVerify in
             await_ updateUser (username userToVerify)
                      [SetEmailVerified true; SetEmailVerificationToken None];
             let accessToken :=
               access_token (id a) (username userToVerify) (Date_now env) in
             let refreshToken :=
               refresh_token (id a) (username userToVerify) (Date_now env) in
             await_ addRefreshToken (username userToVerify) refreshToken;
             ret (Json 200
                    [("success", JBool true);
                     ("message",
                      JStr "Email verified successfully! You can now use all features.");
                     ("token", JTok accessToken);
                     ("refreshToken", JTok refreshToken);
                     ("user", JObj [("id", JOpt JStr (id a));
                                    ("username", JStr (username userToVerify));
                                    ("email", JOpt JStr (email a));
                                    ("emailVerified", JBool true);
                                    ("createdAt", JOpt JDate (createdAt a))])])
         end
     end)
    (fun error => failure_with 500 "Email verification failed" error).

(** *** POST /api/refresh *)

Definition refresh (env : Env) (b_refreshToken : option Token) : Prog Response :=
  handle
    (match present b_refreshToken with
     | None => ret (failure 400 "Refresh token is required")
     | Some refreshToken =>
         await decoded <- Ret (verify refreshToken JWT_SECRET (Date_now env));
         if negb (bool_decide (p_type (payload decoded) = Some "refresh"))
         then ret (failure 403 "Invalid token type")
         else
           let uname := p_username (payload decoded) in
           await user <- getUserByUsername uname;
           match user with
           | None => ret (failure 403 "Invalid refresh token")
           | Some user =>
               await hasToken <- hasRefreshToken uname refreshToken;
               if negb hasToken then ret (failure 403 "Invalid refresh token")
               else
                 let a := attrs user in
                 let newToken := access_token (id a) (username user) (Date_now env) in
                 let newRefreshToken :=
                   refresh_token (id a) (username user) (Date_now env) in
                 await_ removeRefreshToken uname refreshToken;
                 await_ addRefreshToken uname newRefreshToken;
                 ret (Json 200
                        [("success", JBool true);
                         ("message", JStr "Token refreshed successfully");
                         ("token", JTok newToken);
                         ("refreshToken", JTok newRefreshToken);
                         ("user", JObj [("id", JOpt JStr (id a));
                                        ("username", JStr (username user));
                                        ("email", JOpt JStr (email a));
                                        ("createdAt", JOpt JDate (createdAt a))])])
           end
     end)
    (fun error => failure 403 "Invalid or expired refresh token").

(** *** POST /api/logout *)

Definition logout (user : ReqUser) : Prog Response :=
  handle
    (await_ with_key (req_username user) clearRefreshTokens;
     ret (Json 200 [("success", JBool true);
                    ("message", JStr "Logged out successfully")]))
    (fun error => failure 500 "Logout failed").

Definition logout_route (authHeader : option (list Token)) (env : Env) : Prog Response :=
  match authenticateToken authHeader (Date_now env) with
  | Reply r => Ret r
  | Next user => logout user
  end.

End Server.

(** ** Share links (server.js, [sharedImages]) *)

Record SharedImage := mkSharedImage {
  imageId : string;
  filename : string;
  filterName : string;
  userId : option string;
  expiresAt : Z;
  sharedAt : Z }.

(** [String.prototype.includes] and [startsWith] *)
Definition includes (s sub : string) : bool :=
  if String.eqb sub "" then true
  else bool_decide (is_Some (String.index 0 sub s)).

Definition startsWith (s pre : string) : bool := String.prefix pre s.

(** A [Date] holds at most 8.64e15 milliseconds on either side of the epoch;
    [toISOString] of any other value throws a [RangeError]. *)
Definition toISOString (ms : Z) : Result Z :=
  if (Z.abs ms <=? 8640000000000000) then Ok ms
  else Throw (mkError "RangeError" "Invalid time value").

(** [path.join(processedDir, filename)] *)
Definition processedPath (file : string) : string := "processed/" +:+ file.

(** [process.env.BASE_URL || 'http://localhost:3000'] *)
Definition BASE_URL : string := "http://localhost:3000".

(** *** POST /api/share, behind [authenticateToken] *)
Definition share (env : Env) (user : ReqUser)
    (b_imageId b_filterName : option string) (b_expiresInHours : option Z)
    (sharedImages : gmap string SharedImage)
  : Response * gmap string SharedImage :=
  let expiresInHours := default 24 b_expiresInHours in
  let userId := req_username user in
  let on_error (error : Error) := failure_with 500 "Error creating shareable link" error in
  match truthy b_imageId, truthy b_filterName with
  | Some imageId, Some filterName =>
      match readdir env with
      | Throw error => (on_error error, sharedImages)
      | Ok processed =>
          match List.find (fun file => startsWith file imageId && includes file filterName)
                          processed with
          | None => (failure 404 "Processed image not found", sharedImages)
          | Some filename =>
              let shareToken := uuidv4 env in
              let expiresAt := Date_now env + expiresInHours * 60 * 60 * 1000 in
              match toISOString expiresAt with
              | Throw error => (on_error error, sharedImages)
              | Ok iso =>
                  (Json 200 [("success", JBool true);
                             ("shareToken", JStr shareToken);
                             ("shareUrl", JStr (BASE_URL +:+ "/api/shared/" +:+ shareToken));
                             ("expiresAt", JDate iso);
                             ("message", JStr "Shareable link created successfully")],
                   <[shareToken :=
                       mkSharedImage imageId filename filterName userId iso (Date_now env)]>
                     sharedImages)
              end
          end
      end
  | _, _ => (failure 400 "Image ID and filter name are required", sharedImages)
  end.

(** *** GET /api/shared/:token *)
Definition shared (env : Env) (token : string) (sharedImages : gmap string SharedImage)
  : Response * gmap string SharedImage :=
  match sharedImages !! token with
  | None => (failure 404 "Shared link not found or expired", sharedImages)
  | Some sharedImage =>
      if expiresAt sharedImage <? Date_now env then
        (failure 410 "Shared link has expired", delete token sharedImages)
      else
        let filePath := processedPath (filename sharedImage) in
        if negb (pathExists env filePath) then
          (failure 404 "Image file not found", sharedImages)
        else (SendFile "image/png" filePath, sharedImages)
  end.

(** A world in which no coming [send] throws. *)
Definition quiet (w : World) : Prop := Forall (fun o => o = None) (net w).

(** What the external verifier makes of a token: it rejects it, or there is
    no verifier. *)
Definition cognito_rejects (cognito : option (Token -> Result CognitoPayload))
    (tok : Token) : Prop :=
  match cognito with
  | Some verifyToken => exists e, verifyToken tok = Throw e
  | None => True
  end.

(** [Authorization: Bearer <token>], split at the spaces. *)
Definition bearer (tok : Token) : option (list Token) := Some [Opaque "Bearer"; tok].

(** ** Two requests in flight: what one of them does whatever the other does

    [under I Q p]: started in a world that satisfies [I], every [send] of [p]
    leaves a world that satisfies [I] again, and the answer of [p], when it
    comes, satisfies [Q]. *)
Fixpoint under {A} (I : World -> Prop) (Q : A -> Prop) (p : Prog A) : Prop :=
  match p with
  | Ret a => Q a
  | Send c k =>
      forall w, I w -> I (perform c w).2 /\ under I Q (k (perform c w).1)
  end.

(** The token is not recorded for the user it names. *)
Definition absent (t : Token) (w : World) : Prop :=
  forall key c, t = Signed key c -> t ∉ stored_tokens (table w) (p_username (payload c)).

(** A refusal: 403 and no token in the answer. *)
Definition refusal (r : Response) : Prop :=
  status r = 403 /\ field "token" (body_of r) = None /\
  field "refreshToken" (body_of r) = None.

(** [removes n I T p]: on the table [T], the request [p] either answers with
    a failure, or makes [n] sends that leave [T] as it is and one more send
    after which it fails or has established [I], which the rest of [p] then
    maintains. *)
Fixpoint removes (n : nat) (I : World -> Prop) (T : gmap string Attrs)
    (p : Prog Response) {struct p} : Prop :=
  match p with
  | Ret r => status r <> 200
  | Send c k =>
      forall w, table w = T ->
        match n with
        | O => (exists r, k (perform c w).1 = Ret r /\ status r <> 200) \/
               (I (perform c w).2 /\ under I (fun _ => True) (k (perform c w).1))
        | S n' => table (perform c w).2 = T /\ removes n' I T (k (perform c w).1)
        end
  end.

(** [starts I Q p]: the first send of [p] does not write, and from its
    second send on [p] is [under I Q]; so is [p] itself. *)
Definition starts {A} (I : World -> Prop) (Q : A -> Prop) (p : Prog A) : Prop :=
  under I Q p /\
  match p with
  | Ret _ => True
  | Send c k =>
      forall w, table (perform c w).2 = table w /\ under I Q (k (perform c w).1)
  end.

(** Both requests look the user up and check membership before either of
    them removes the token. *)
Definition race : list bool :=
  [true; false; true; false; true; true; true; false; false; false].

(** ** Scenario data *)

Definition SECRET : string := "photofilter-pro-secret-key-2024".

Definition env_at (now : Z) : Env :=
  mkEnv now "3f2b8c1e-uuid" "salt" false (Ok ["img1-sepia.png"]) (fun _ => true).

(** [alice] registers without an e-mail address at 1700000000100 ms. *)
Definition w_alice : World :=
  (run (register SECRET (env_at 1700000000100) (Some "alice") (Some "Secret123!") None)
       (mkWorld ∅ [])).2.

Definition t_alice : Token := refresh_token SECRET (Some "alice") "alice" 1700000000100.

Definition a_alice : Token := access_token SECRET (Some "alice") "alice" 1700000000100.

(** [alice] logs out at 1700000003000 ms. *)
Definition w_logout : World :=
  (run (logout_route SECRET None (bearer a_alice) (env_at 1700000003000)) w_alice).2.

(** [bob] registers with an e-mail address; the message cannot be sent. *)
Definition w_bob : World :=
  (run (register SECRET (env_at 1700000000100) (Some "bob") (Some "hunter22")
                 (Some "bob@example.com"))
       (mkWorld ∅ [])).2.

(** [bob] presents the verification token of his registration. *)
Definition w_bob_verified : World :=
  (run (verify_email SECRET (env_at 1700000060000) (Some "3f2b8c1e-uuid")) w_bob).2.

(** [alice], authenticated, shares a processed image for zero hours. *)
Definition u_alice : ReqUser :=
  LegacyUser (mkClaims (mkPayload (Some "alice") "alice" None) 1700000000 1700086400).

Definition shares_zero : gmap string SharedImage :=
  (share (env_at 1700000010000) u_alice (Some "img1") (Some "sepia") (Some 0) ∅).2.

(** A verifier that takes no token for one of the identity provider. *)
Definition not_applicable (tok : Token) : Result CognitoPayload :=
  Throw (mkError "JwtParseError" "Token is not a Cognito token").

(** ** Further routes and helpers of server.js *)

(** *** POST /api/resend-verification *)
Definition resend_verification (env : Env) (b_username : option string) : Prog Response :=
  handle
    (match truthy b_username with
     | None => ret (failure 400 "Username is required")
     | Some uname =>
         await user <- getUserByUsername uname;
         match user with
         | None => ret (failure 404 "User not found")
         | Some user =>
             if default false (emailVerified (attrs user))
             then ret (failure 400 "Email is already verified")
             else
               match truthy (email (attrs user)) with
               | None => ret (failure 400 "No email address associated with this account")
               | Some mail =>
                   let newVerificationToken := uuidv4 env in
                   await_ updateUser uname
                            [SetEmailVerificationToken (Some newVerificationToken)];
                   let emailSent :=
                     sendVerificationEmail env mail (username user) newVerificationToken in
                   ret (Json 200
                          [("success", JBool emailSent);
                           ("message",
                            JStr (if emailSent then "Verification email sent successfully"
                                  else "Failed to send verification email"))])
               end
         end
     end)
    (fun error => failure_with 500 "Failed to resend verification email" error).

(** *** GET /api/profile, behind [authenticateToken] *)
Definition profile (user : ReqUser) : Prog Response :=
  handle
    (await found <- with_key (req_username user) getUserByUsername;
     match found with
     | None => ret (failure 404 "User not found")
     | Some u =>
         let a := attrs u in
         ret (Json 200
                [("success", JBool true);
                 ("user", JObj [("id", JOpt JStr (id a));
                                ("username", JStr (username u));
                                ("email", JOpt JStr (email a));
                                ("createdAt", JOpt JDate (createdAt a))])])
     end)
    (fun error => failure_with 500 "Error fetching profile" error).

(** *** authenticateCognitoToken *)
Definition authenticateCognitoToken (cognito : option (Token -> Result CognitoPayload))
    (authHeader : option (list Token)) : Middleware :=
  match cognito with
  | None => Reply (failure 501 "Cognito authentication not configured")
  | Some verifyToken =>
      match present (h ← authHeader; h !! 1%nat) with
      | None => Reply (failure 401 "Access token required")
      | Some token =>
          match verifyToken token with
          | Ok p =>
              Next (CognitoUser (sub p)
                      (match truthy (cognito_username p) with
                       | Some u => Some u
                       | None => cp_username p
                       end)
                      (cp_email p) (email_verified p))
          | Throw error => Reply (failure_with 403 "Invalid or expired token" error)
          end
      end
  end.

(** *** initializeDefaultUser: its [catch] only logs *)
Definition initializeDefaultUser (env : Env) : Prog unit :=
  handle
    (await existingUser <- getUserByUsername "anter";
     match existingUser with
     | Some _ => ret tt
     | None =>
         let hashedPassword := bcrypt_hash "kingkong" (genSalt env) in
         await_ createUser
                  (mkItem "anter"
                     (mkAttrs (Some "anter") (Some hashedPassword)
                              (Some "anter@example.com") (Some (Date_now env))
                              (Some []) (Some true) None));
         ret tt
     end)
    (fun error => tt).

(** *** A route registered as [app.get(path, authenticateToken, handler)] *)
Definition protected (JWT_SECRET : string)
    (cognito : option (Token -> Result CognitoPayload))
    (handler : ReqUser -> Prog Response)
    (authHeader : option (list Token)) (env : Env) : Prog Response :=
  match authenticateToken JWT_SECRET cognito authHeader (Date_now env) with
  | Reply r => Ret r
  | Next user => handler user
  end.

Definition profile_route (JWT_SECRET : string)
    (cognito : option (Token -> Result CognitoPayload)) :=
  protected JWT_SECRET cognito profile.

(** ** The browser client (api-script.js)

    [fetch] resolves with what the server answers, or rejects. The client
    is given, for each request it may send, what [fetch] does with it: the
    request for [url], the one to [/api/refresh], the one to [/api/logout]
    and the second request for [url]. *)

(** A [fetch] that resolves with the answer of the server. *)
Fixpoint resolved {A} (p : Prog A) : Async A :=
  match p with
  | Ret a => Ret (Ok a)
  | Send c k => Send c (fun r => resolved (k r))
  end.

(** Whether [if (v)] takes the branch, for the value of a JSON field. *)
Definition js_truthy (v : option JValue) : bool :=
  match v with
  | None | Some JNull => false
  | Some (JBool b) => b
  | Some (JStr s) => negb (String.eqb s "")
  | Some (JTok t) => bool_decide (t <> Opaque "")
  | Some (JDate _) | Some (JObj _) => true
  end.

(** A JSON field kept as a token; [undefined] and [null] are [None]. *)
Definition as_token (v : option JValue) : option Token :=
  match v with
  | Some (JTok t) => Some t
  | Some (JStr s) => Some (Opaque s)
  | _ => None
  end.

Module Client.

(** [this.authToken], [this.refreshToken] and [this.authType]. *)
Record State := mkState {
  authToken : option Token;
  refreshToken : option Token;
  authType : string }.

Section Requests.

Variable fetch_url : option (list Token) -> Async Response.
Variable fetch_refresh : option Token -> Async Response.
Variable fetch_logout : option (list Token) -> Async Response.
Variable fetch_url_again : option (list Token) -> Async Response.

(** [handleLogout], without the page: the call to the server, whose failure
    is only logged, then the fields cleared. *)
Definition handleLogout (c : State) : Async State :=
  await_ try_catch
           (match present (authToken c) with
            | Some t => await_ fetch_logout (bearer t); ret tt
            | None => ret tt
            end)
           (fun error => ret tt);
  ret (mkState None None (authType c)).

(** [refreshAuthToken]. It starts [handleLogout] without awaiting it; the
    state returned is the one [handleLogout] leaves. *)
Definition refreshAuthToken (c : State) : Async (bool * State) :=
  if String.eqb (authType c) "cognito" then ret (false, c)
  else
    match present (refreshToken c) with
    | None => ret (false, c)
    | Some rt =>
        try_catch
          (await response <- fetch_refresh (Some rt);
           match response with
           | SendFile _ _ => throw (mkError "SyntaxError" "Unexpected token in JSON")
           | Json _ data =>
               if js_truthy (field "success" data) then
                 ret (true, mkState (as_token (field "token" data))
                                    (as_token (field "refreshToken" data)) (authType c))
               else
                 await c' <- handleLogout c;
                 ret (false, c')
           end)
          (fun error =>
             await c' <- handleLogout c;
             ret (false, c'))
    end.

(** [makeAuthenticatedRequest]: the response and the state it leaves. The
    status is looked at before the message; a message that is no string has
    no [includes]. A header built from a missing token carries its text. *)
Definition makeAuthenticatedRequest (c : State) : Async (Response * State) :=
  let headers :=
    match present (authToken c) with
    | Some t => bearer t
    | None => None
    end in
  await response <- fetch_url headers;
  if ((status response =? 401) || (status response =? 403)) &&
     bool_decide (is_Some (present (refreshToken c)))
  then
    await expired <-
      (if status response =? 401 then ret true
       else
         match field "message" (body_of response) with
         | Some (JStr m) | Some (JTok (Opaque m)) => ret (includes m "expired")
         | Some (JBool true) | Some (JObj _) =>
             throw (mkError "TypeError" "errorData.message.includes is not a function")
         | _ => ret false
         end);
    if expired then
      await refreshed <- refreshAuthToken c;
      if refreshed.1 then
        await again <- fetch_url_again
                         (bearer (default (Opaque "undefined") (authToken refreshed.2)));
        ret (again, refreshed.2)
      else ret (response, refreshed.2)
    else ret (response, c)
  else ret (response, c).

End Requests.

End Client.

(** ** Further scenarios *)

(** [alice] registers with a verification token of her own, then [bob]. *)
Definition w_two : World :=
  (run (register SECRET (env_at 1700000000200) (Some "bob") (Some "hunter22")
                 (Some "bob@example.com"))
       (run (register SECRET
                      (mkEnv 1700000000100 "0a1b7c2d-uuid" "salt" false (Ok []) (fun _ => true))
                      (Some "alice") (Some "Secret123!") None)
            (mkWorld ∅ [])).2).2.

(** The store turns a request down. *)
Definition throttled : Error :=
  mkError "ProvisionedThroughputExceededException" "Rate exceeded".

(** A principal of the identity provider. *)
Definition u_dave : ReqUser := CognitoUser "sub-dave" (Some "dave") None None.

(** The browser of [alice], a day and more after her registration. *)
Definition c_alice : Client.State := Client.mkState (Some a_alice) (Some t_alice) "legacy".

(** * Properties *)

(** ** Running programs *)

Lemma run_bind {A B} (m : Async A) (f : A -> Async B) (w : World) :
  run (bind m f) w =
  match run m w with
  | (Ok a, w') => run (f a) w'
  | (Throw e, w') => (Throw e, w')
  end.
Proof.
  revert w; induction m as [[a|e]|R c k IH]; intros w; simpl; try reflexivity.
  destruct (perform c w) as [r w1]. apply IH.
Qed.

Lemma run_try_catch {A} (m : Async A) (h : Error -> Async A) (w : World) :
  run (try_catch m h) w =
  match run m w with
  | (Ok a, w') => (Ok a, w')
  | (Throw e, w') => run (h e) w'
  end.
Proof.
  revert w; induction m as [[a|e]|R c k IH]; intros w; simpl; try reflexivity.
  destruct (perform c w) as [r w1]. apply IH.
Qed.

Lemma run_handle {A} (m : Async A) (h : Error -> A) (w : World) :
  run (handle m h) w =
  match run m w with
  | (Ok a, w') => (a, w')
  | (Throw e, w') => (h e, w')
  end.
Proof.
  revert w; induction m as [[a|e]|R c k IH]; intros w; simpl; try reflexivity.
  destruct (perform c w) as [r w1]. apply IH.
Qed.

Lemma run_ret {A} (a : A) (w : World) : run (ret a) w = (Ok a, w).
Proof. reflexivity. Qed.

Lemma run_throw {A} (e : Error) (w : World) : run (@throw A e) w = (Throw e, w).
Proof. reflexivity. Qed.

Lemma run_Ret {A} (a : A) (w : World) : run (Ret a) w = (a, w).
Proof. reflexivity. Qed.

Lemma run_send {R} (c : Command R) (w : World) :
  run (send c) w =
  match fault w with
  | Some e => (Throw e, after (table w) w)
  | None => ((exec c (table w)).1, after (exec c (table w)).2 w)
  end.
Proof.
  destruct w as [t [|[e|] n]]; unfold fault, after, send; simpl;
    unfold perform; simpl; try reflexivity; destruct (exec c t); reflexivity.
Qed.

Lemma run_getUserByUsername k w :
  run (getUserByUsername k) w =
  match fault w with
  | Some e => (Throw e, after (table w) w)
  | None => (Ok (mkItem k <$> table w !! k), after (table w) w)
  end.
Proof.
  unfold getUserByUsername. rewrite run_try_catch, run_send.
  destruct (fault w); reflexivity.
Qed.

Lemma run_hasRefreshToken k tok w :
  run (hasRefreshToken k tok) w =
  (Ok (match fault w with
       | Some _ => false
       | None => bool_decide (tok ∈ stored_tokens (table w) k)
       end), after (table w) w).
Proof.
  unfold hasRefreshToken, stored_tokens.
  rewrite run_try_catch, run_bind, run_getUserByUsername.
  destruct (fault w); [reflexivity|].
  destruct (table w !! k) as [a|]; simpl; [|reflexivity].
  destruct (refreshTokens a); reflexivity.
Qed.

Lemma run_update k u w :
  run (send (UpdateCommand k u)) w =
  match fault w with
  | Some e => (Throw e, after (table w) w)
  | None =>
      let a := update (default no_attrs (table w !! k)) u in
      (Ok (mkItem k a), after (<[k := a]> (table w)) w)
  end.
Proof. rewrite run_send. destruct (fault w); reflexivity. Qed.

Lemma run_addRefreshToken k tok w :
  run (addRefreshToken k tok) w =
  match fault w with
  | Some e => (Throw e, after (table w) w)
  | None =>
      let a := update (default no_attrs (table w !! k)) (SET_list_append tok) in
      (Ok (mkItem k a), after (<[k := a]> (table w)) w)
  end.
Proof.
  unfold addRefreshToken. rewrite run_try_catch, run_update.
  destruct (fault w); reflexivity.
Qed.

Lemma run_clearRefreshTokens k w :
  run (clearRefreshTokens k) w =
  match fault w with
  | Some e => (Throw e, after (table w) w)
  | None =>
      let a := update (default no_attrs (table w !! k)) (SET [SetRefreshTokens []]) in
      (Ok (mkItem k a), after (<[k := a]> (table w)) w)
  end.
Proof.
  unfold clearRefreshTokens. rewrite run_try_catch, run_update.
  destruct (fault w); reflexivity.
Qed.

Lemma run_updateUser k l w :
  run (updateUser k l) w =
  match fault w with
  | Some e => (Throw e, after (table w) w)
  | None =>
      let a := update (default no_attrs (table w !! k)) (SET l) in
      (Ok (mkItem k a), after (<[k := a]> (table w)) w)
  end.
Proof.
  unfold updateUser. rewrite run_try_catch, run_update.
  destruct (fault w); reflexivity.
Qed.

Create Rewrite HintDb run.
#[global] Hint Rewrite @run_bind @run_try_catch @run_handle @run_ret @run_throw @run_Ret
  run_getUserByUsername run_hasRefreshToken run_update run_addRefreshToken
  run_clearRefreshTokens run_updateUser : run.

Arguments run : simpl never.
Arguments bind : simpl never.
Arguments try_catch : simpl never.
Arguments handle : simpl never.
Arguments send : simpl never.
Arguments ret : simpl never.
Arguments throw : simpl never.

Lemma filter_length_member (tok : Token) (l : list Token) :
  (length (filter (fun x => x <> tok) l) =? length l)%nat = negb (bool_decide (tok ∈ l)).
Proof.
  induction l as [|y l IH]; [reflexivity|].
  pose proof (length_filter (fun x => x <> tok) l) as Hle.
  rewrite filter_cons. destruct (decide (y <> tok)) as [Hne|Heq]; simpl.
  - rewrite IH. f_equal. apply bool_decide_ext. rewrite elem_of_cons.
    split; [by right|intros [E|H]; [by destruct Hne|assumption]].
  - assert (y = tok) as -> by (destruct (decide (y = tok)); [assumption|contradiction]).
    rewrite bool_decide_eq_true_2 by left. simpl.
    apply Nat.eqb_neq. lia.
Qed.

(** [removeRefreshToken]: a read, and a write only when the read finds the
    token. *)
Lemma run_removeRefreshToken k tok w :
  run (removeRefreshToken k tok) w =
  match fault w with
  | Some e => (Throw e, after (table w) w)
  | None =>
      let w1 := after (table w) w in
      if bool_decide (tok ∈ stored_tokens (table w) k) then
        match fault w1 with
        | Some e => (Throw e, after (table w) w1)
        | None =>
            let a' := assign (default no_attrs (table w !! k))
                        (SetRefreshTokens
                           (filter (fun x => x <> tok) (stored_tokens (table w) k))) in
            (Ok (Some (mkItem k a')), after (<[k := a']> (table w)) w1)
        end
      else (Ok (mkItem k <$> table w !! k), w1)
  end.
Proof.
  unfold removeRefreshToken, stored_tokens. autorewrite with run.
  destruct (fault w) as [e|]; [reflexivity|].
  destruct (table w !! k) as [a|] eqn:L; simpl; [|reflexivity].
  destruct (refreshTokens a) as [toks|] eqn:T; simpl; [|reflexivity].
  rewrite filter_length_member.
  destruct (bool_decide (tok ∈ toks)); simpl; [|reflexivity].
  autorewrite with run. simpl.
  destruct (fault (after (table w) w)); [reflexivity|].
  simpl. rewrite L. reflexivity.
Qed.

#[global] Hint Rewrite run_removeRefreshToken : run.

(** ** The refresh handler *)

Section RefreshFacts.

Variable JWT_SECRET : string.

(** What a successful refresh has checked and what it leaves behind. *)
Lemma refresh_success env body w r w' :
  run (refresh JWT_SECRET env body) w = (r, w') ->
  status r = 200 ->
  exists t c a toks,
    body = Some t /\
    verify t JWT_SECRET (Date_now env) = Ok c /\
    p_type (payload c) = Some "refresh" /\
    table w !! p_username (payload c) = Some a /\
    refreshTokens a = Some toks /\
    t ∈ toks /\
    field "refreshToken" (body_of r) =
      Some (JTok (refresh_token JWT_SECRET (id a) (p_username (payload c)) (Date_now env))) /\
    table w' =
      <[p_username (payload c) :=
          assign a (SetRefreshTokens
                      (filter (fun x => x <> t) toks ++
                       [refresh_token JWT_SECRET (id a) (p_username (payload c))
                                      (Date_now env)]))]> (table w).
Proof.
  unfold refresh. intros Hrun Hst.
  destruct (present body) as [t|] eqn:Hp.
  2:{ autorewrite with run in Hrun. inversion Hrun; subst; discriminate. }
  assert (body = Some t) as ->.
  { destruct body as [[?|[|]]|]; simpl in Hp; congruence. }
  autorewrite with run in Hrun.
  destruct (verify t JWT_SECRET (Date_now env)) as [c|e] eqn:Hv.
  2:{ inversion Hrun; subst; discriminate. }
  destruct (decide (p_type (payload c) = Some "refresh")) as [Ht|Ht].
  2:{ rewrite bool_decide_eq_false_2 in Hrun by assumption. simpl in Hrun.
      autorewrite with run in Hrun. inversion Hrun; subst; discriminate. }
  rewrite bool_decide_eq_true_2 in Hrun by assumption. simpl in Hrun.
  autorewrite with run in Hrun.
  set (k := p_username (payload c)) in *.
  destruct (fault w) as [e|] eqn:F1.
  { inversion Hrun; subst; discriminate. }
  destruct (table w !! k) as [a|] eqn:L; simpl in Hrun.
  2:{ autorewrite with run in Hrun. inversion Hrun; subst; discriminate. }
  autorewrite with run in Hrun. simpl in Hrun.
  destruct (fault (after (table w) w)) as [e|] eqn:F2.
  { simpl in Hrun. autorewrite with run in Hrun. inversion Hrun; subst; discriminate. }
  destruct (bool_decide (t ∈ stored_tokens (table w) k)) eqn:Hm; simpl in Hrun.
  2:{ autorewrite with run in Hrun. inversion Hrun; subst; discriminate. }
  apply bool_decide_eq_true_1 in Hm. unfold stored_tokens in Hm. rewrite L in Hm.
  simpl in Hm. destruct (refreshTokens a) as [toks|] eqn:T; simpl in Hm.
  2:{ inversion Hm. }
  assert (bool_decide (t ∈ stored_tokens (table w) k) = true) as Hm'.
  { apply bool_decide_eq_true_2. unfold stored_tokens. rewrite L. simpl. by rewrite T. }
  autorewrite with run in Hrun. simpl in Hrun. rewrite Hm' in Hrun.
  repeat match type of Hrun with
         | context [match fault ?x with _ => _ end] =>
             destruct (fault x) as [?e|];
             [solve [inversion Hrun; subst; discriminate]|]
         end.
  simpl in Hrun. autorewrite with run in Hrun. simpl in Hrun.
  repeat match type of Hrun with
         | context [match fault ?x with _ => _ end] =>
             destruct (fault x) as [?e|];
             [solve [inversion Hrun; subst; discriminate]|]
         end.
  simpl in Hrun. autorewrite with run in Hrun. inversion Hrun; subst r w'; clear Hrun.
  exists t, c, a, toks. repeat split; try assumption.
  simpl. rewrite lookup_insert_eq. simpl. rewrite insert_insert_eq.
  unfold stored_tokens. rewrite L. simpl. rewrite T. reflexivity.
Qed.

Lemma present_token (t : Token) : t <> Opaque "" -> present (Some t) = Some t.
Proof. destruct t as [?|[|]]; simpl; congruence. Qed.

(** A token that is not recorded for its user is turned away, and the
    table is left as it was. *)
Lemma refresh_rejects env t w r w' :
  t <> Opaque "" ->
  (forall c, verify t JWT_SECRET (Date_now env) = Ok c ->
             t ∉ stored_tokens (table w) (p_username (payload c))) ->
  run (refresh JWT_SECRET env (Some t)) w = (r, w') ->
  status r = 403 /\ table w' = table w /\
  field "token" (body_of r) = None /\ field "refreshToken" (body_of r) = None /\
  (forall c, verify t JWT_SECRET (Date_now env) = Ok c ->
             p_type (payload c) = Some "refresh" -> fault w = None ->
             r = failure 403 "Invalid refresh token").
Proof.
  intros Hne Habs Hrun. unfold refresh in Hrun.
  rewrite (present_token t Hne) in Hrun. autorewrite with run in Hrun.
  destruct (verify t JWT_SECRET (Date_now env)) as [c|e] eqn:Hv.
  2:{ inversion Hrun; subst. repeat split; try reflexivity. intros; discriminate. }
  specialize (Habs c eq_refl).
  destruct (decide (p_type (payload c) = Some "refresh")) as [Ht|Ht].
  2:{ rewrite bool_decide_eq_false_2 in Hrun by assumption. simpl in Hrun.
      autorewrite with run in Hrun. inversion Hrun; subst.
      repeat split; try reflexivity. intros c' [= <-] ?; contradiction. }
  rewrite bool_decide_eq_true_2 in Hrun by assumption. simpl in Hrun.
  autorewrite with run in Hrun.
  destruct (fault w) as [e|] eqn:F1.
  { inversion Hrun; subst. repeat split; try reflexivity. intros; discriminate. }
  destruct (table w !! p_username (payload c)) as [a|] eqn:L; simpl in Hrun.
  2:{ autorewrite with run in Hrun. inversion Hrun; subst.
      repeat split; reflexivity. }
  autorewrite with run in Hrun. simpl in Hrun.
  rewrite (bool_decide_eq_false_2 _ Habs) in Hrun.
  assert (negb (match fault (after (table w) w) with
                | Some _ => false | None => false end) = true) as E
    by (destruct (fault (after (table w) w)); reflexivity).
  rewrite E in Hrun. autorewrite with run in Hrun.
  inversion Hrun; subst. repeat split; reflexivity.
Qed.

End RefreshFacts.

(** ** The unified authenticator *)

Lemma verify_sign p secret ttl now0 now :
  seconds now < seconds now0 + ttl ->
  verify (sign p secret ttl now0) secret now =
  Ok {| payload := p; iat := seconds now0; exp := seconds now0 + ttl |}.
Proof.
  intros H. unfold verify, sign. rewrite String.eqb_refl. simpl.
  destruct (Z.leb_spec (seconds now0 + ttl) (seconds now)); [lia|reflexivity].
Qed.

Lemma authenticate_legacy JWT_SECRET cognito hdr tok now :
  present (hdr ≫= (fun h => h !! 1%nat)) = Some tok ->
  cognito_rejects cognito tok ->
  authenticateToken JWT_SECRET cognito hdr now = legacy_jwt JWT_SECRET tok now.
Proof.
  intros Hp Hc. unfold authenticateToken.
  change (h ← hdr; h !! 1%nat) with (hdr ≫= (fun h => h !! 1%nat)). rewrite Hp.
  destruct cognito as [v|]; [|reflexivity].
  destruct Hc as [e ->]. reflexivity.
Qed.

(** C2. When the external verifier is configured and fails on the presented
    token, whatever the failure, the authenticator answers what the local
    codec answers: a token issued locally and not yet expired authenticates
    with its own claims, and nothing of the external failure is reported.
    A request without a token is answered 401 "Access token required". *)
Theorem authenticate_falls_through JWT_SECRET verifyToken hdr tok now e :
  present (hdr ≫= (fun h => h !! 1%nat)) = Some tok ->
  verifyToken tok = Throw e ->
  authenticateToken JWT_SECRET (Some verifyToken) hdr now = legacy_jwt JWT_SECRET tok now /\
  (forall c, verify tok JWT_SECRET now = Ok c ->
             authenticateToken JWT_SECRET (Some verifyToken) hdr now = Next (LegacyUser c)) /\
  (forall p ttl now0, tok = sign p JWT_SECRET ttl now0 -> seconds now < seconds now0 + ttl ->
             authenticateToken JWT_SECRET (Some verifyToken) hdr now =
             Next (LegacyUser (mkClaims p (seconds now0) (seconds now0 + ttl)))) /\
  (forall hdr', present (hdr' ≫= (fun h => h !! 1%nat)) = None ->
             authenticateToken JWT_SECRET (Some verifyToken) hdr' now =
             Reply (failure 401 "Access token required")).
Proof.
  intros Hp Hv.
  assert (authenticateToken JWT_SECRET (Some verifyToken) hdr now =
          legacy_jwt JWT_SECRET tok now) as Hl.
  { apply authenticate_legacy; [assumption|]. exists e. assumption. }
  split; [assumption|]. split; [|split].
  - intros c Hc. rewrite Hl. unfold legacy_jwt. rewrite Hc. reflexivity.
  - intros p ttl now0 -> Hlt. rewrite Hl. unfold legacy_jwt.
    rewrite verify_sign by assumption. reflexivity.
  - intros hdr' Hn. unfold authenticateToken.
    change (h ← hdr'; h !! 1%nat) with (hdr' ≫= (fun h => h !! 1%nat)). rewrite Hn.
    reflexivity.
Qed.

Lemma authenticate_falls_through_witness :
  authenticateToken SECRET (Some not_applicable)
    (bearer (access_token SECRET (Some "alice") "alice" 1700000000100)) 1700000500000 =
  Next (LegacyUser (mkClaims (mkPayload (Some "alice") "alice" None)
                             1700000000 (1700000000 + JWT_EXPIRES_IN))).
Proof.
  refine (proj1 (proj2 (proj2
    (authenticate_falls_through SECRET not_applicable
       (bearer (access_token SECRET (Some "alice") "alice" 1700000000100))
       (access_token SECRET (Some "alice") "alice" 1700000000100)
       1700000500000 (mkError "JwtParseError" "Token is not a Cognito token")
       eq_refl eq_refl)))
    (mkPayload (Some "alice") "alice" None) JWT_EXPIRES_IN 1700000000100 eq_refl _).
  vm_compute. reflexivity.
Defined.

Lemma present_nonempty (o : option Token) (t : Token) :
  present o = Some t -> t <> Opaque "".
Proof. destruct o as [[?|[|]]|]; simpl; congruence. Qed.

Lemma verify_errors tok secret now e :
  verify tok secret now = Throw e ->
  e = TokenExpiredError \/ exists msg, e = JsonWebTokenError msg.
Proof.
  unfold verify. destruct tok as [key c|s].
  - destruct (negb (String.eqb key secret)); [intros [= <-]; right; eauto|].
    destruct (exp c <=? seconds now); [intros [= <-]; left; reflexivity|discriminate].
  - intros [= <-]. right. eauto.
Qed.

(** ** Status codes *)

(** C3, as the code has it. On a protected route an expired token is
    answered 401 and any other verification failure 403. On the refresh route
    every verification failure, expiry included, is answered 403 "Invalid or
    expired refresh token", and so is a token that is not recorded for its
    user. *)
Theorem verification_failure_status JWT_SECRET cognito hdr tok env w :
  present (hdr ≫= (fun h => h !! 1%nat)) = Some tok ->
  cognito_rejects cognito tok ->
  (forall e, verify tok JWT_SECRET (Date_now env) = Throw e ->
     (e = TokenExpiredError \/ exists msg, e = JsonWebTokenError msg) /\
     (exists r, authenticateToken JWT_SECRET cognito hdr (Date_now env) = Reply r /\
                status r = if String.eqb (name e) "TokenExpiredError" then 401 else 403) /\
     (run (refresh JWT_SECRET env (Some tok)) w).1 =
       failure 403 "Invalid or expired refresh token") /\
  (forall c, verify tok JWT_SECRET (Date_now env) = Ok c ->
     tok ∉ stored_tokens (table w) (p_username (payload c)) ->
     status (run (refresh JWT_SECRET env (Some tok)) w).1 = 403).
Proof.
  intros Hp Hc. split.
  - intros e Hv. split; [eapply verify_errors; eassumption|]. split.
    + rewrite (authenticate_legacy _ _ _ tok) by assumption.
      unfold legacy_jwt. rewrite Hv. eexists. split; [reflexivity|].
      simpl. destruct (String.eqb (name e) "TokenExpiredError"); reflexivity.
    + unfold refresh. rewrite (present_token tok (present_nonempty _ _ Hp)).
      autorewrite with run. rewrite Hv. reflexivity.
  - intros c Hv Habs.
    destruct (run (refresh JWT_SECRET env (Some tok)) w) as [r w'] eqn:Hrun.
    eapply refresh_rejects in Hrun.
    + apply Hrun.
    + eapply present_nonempty; eassumption.
    + intros c' Hv'. rewrite Hv in Hv'. injection Hv' as <-. assumption.
Qed.

Lemma verification_failure_status_witness :
  (exists r, authenticateToken SECRET None (bearer t_alice) 1800000000000 = Reply r /\
             status r = 401) /\
  (run (refresh SECRET (env_at 1800000000000) (Some t_alice)) w_alice).1 =
    failure 403 "Invalid or expired refresh token".
Proof.
  destruct (verification_failure_status SECRET None (bearer t_alice) t_alice
              (env_at 1800000000000) w_alice eq_refl I) as [H _].
  destruct (H TokenExpiredError eq_refl) as (_ & Ha & Hr).
  split; assumption.
Defined.

(** C3 as stated fails: a refresh request that presents an expired refresh
    token is answered 403, not 401. *)
Lemma expired_refresh_token_is_answered_403 :
  verify t_alice SECRET 1800000000000 = Throw TokenExpiredError /\
  (run (refresh SECRET (env_at 1800000000000) (Some t_alice)) w_alice).1 =
    failure 403 "Invalid or expired refresh token" /\
  status (run (refresh SECRET (env_at 1800000000000) (Some t_alice)) w_alice).1 <> 401.
Proof. vm_compute. repeat split; discriminate. Qed.

(** ** Refresh: signature and membership *)

(** C7. A refresh answers 200 only for a token that passes the signature and
    expiry check with kind "refresh" and is recorded for the user it names;
    a token that passes the check but is not recorded is answered 403
    "Invalid refresh token" (403 in any case), and the table is not touched. *)
Theorem refresh_requires_signature_and_membership JWT_SECRET env body w r w' :
  run (refresh JWT_SECRET env body) w = (r, w') ->
  (status r = 200 ->
     exists t c, body = Some t /\
       verify t JWT_SECRET (Date_now env) = Ok c /\
       p_type (payload c) = Some "refresh" /\
       t ∈ stored_tokens (table w) (p_username (payload c))) /\
  (forall t c, body = Some t ->
     verify t JWT_SECRET (Date_now env) = Ok c ->
     p_type (payload c) = Some "refresh" ->
     t ∉ stored_tokens (table w) (p_username (payload c)) ->
     status r = 403 /\ table w' = table w /\
     (fault w = None -> r = failure 403 "Invalid refresh token")).
Proof.
  intros Hrun. split.
  - intros Hst. destruct (refresh_success _ _ _ _ _ _ Hrun Hst)
      as (t & c & a & toks & -> & Hv & Ht & L & T & M & _).
    exists t, c. repeat split; try assumption.
    unfold stored_tokens. rewrite L. simpl. rewrite T. assumption.
  - intros t c -> Hv Ht Habs.
    assert (t <> Opaque "") as Hne by (intros ->; discriminate).
    eapply refresh_rejects in Hrun; [|assumption|].
    + destruct Hrun as (H1 & H2 & _ & _ & H5). repeat split; try assumption.
      intros F. eapply H5; eassumption.
    + intros c' Hv'. rewrite Hv in Hv'. injection Hv' as <-. assumption.
Qed.

Lemma refresh_requires_signature_and_membership_witness :
  (exists t c, Some t_alice = Some t /\
     verify t SECRET 1700000005000 = Ok c /\
     p_type (payload c) = Some "refresh" /\
     t ∈ stored_tokens (table w_alice) (p_username (payload c))) /\
  (run (refresh SECRET (env_at 1700000005000) (Some t_alice)) (mkWorld ∅ [])).1 =
    failure 403 "Invalid refresh token".
Proof.
  split.
  - refine (proj1 (refresh_requires_signature_and_membership SECRET
                     (env_at 1700000005000) (Some t_alice) w_alice _ _ _) _);
      [vm_compute; reflexivity | vm_compute; reflexivity].
  - refine (proj2 (proj2 (proj2 (refresh_requires_signature_and_membership SECRET
                     (env_at 1700000005000) (Some t_alice) (mkWorld ∅ []) _ _ _)
                     t_alice _ eq_refl _ _ _)) _).
    + vm_compute. reflexivity.
    + vm_compute. reflexivity.
    + vm_compute. reflexivity.
    + vm_compute. apply not_elem_of_nil.
    + reflexivity.
Defined.

(** ** Refresh: the membership check fails closed *)

(** C10. If the lookup made by [hasRefreshToken] throws, the check answers
    [false]; the refresh request is then answered 403 "Invalid refresh
    token", the answer a revoked token gets, and the table is left as it
    was. *)
Theorem membership_check_fails_closed JWT_SECRET env t c a w e :
  verify t JWT_SECRET (Date_now env) = Ok c ->
  p_type (payload c) = Some "refresh" ->
  table w !! p_username (payload c) = Some a ->
  fault w = None ->
  fault (after (table w) w) = Some e ->
  run (hasRefreshToken (p_username (payload c)) t) (after (table w) w) =
    (Ok false, after (table w) (after (table w) w)) /\
  run (refresh JWT_SECRET env (Some t)) w =
    (failure 403 "Invalid refresh token", after (table w) (after (table w) w)) /\
  (forall w2, fault w2 = None ->
     t ∉ stored_tokens (table w2) (p_username (payload c)) ->
     (run (refresh JWT_SECRET env (Some t)) w2).1 =
     (run (refresh JWT_SECRET env (Some t)) w).1).
Proof.
  intros Hv Ht L F1 F2.
  assert (t <> Opaque "") as Hne by (intros ->; discriminate).
  assert (run (refresh JWT_SECRET env (Some t)) w =
          (failure 403 "Invalid refresh token", after (table w) (after (table w) w))) as Hr.
  { unfold refresh. rewrite (present_token t Hne). autorewrite with run.
    rewrite Hv. rewrite bool_decide_eq_true_2 by assumption. simpl.
    autorewrite with run. rewrite F1, L. simpl. autorewrite with run.
    rewrite F2. simpl. autorewrite with run. reflexivity. }
  split; [|split].
  - autorewrite with run. rewrite F2. reflexivity.
  - assumption.
  - intros w2 F Habs. rewrite Hr. simpl.
    destruct (run (refresh JWT_SECRET env (Some t)) w2) as [r2 w2'] eqn:Hrun.
    eapply refresh_rejects in Hrun; [|assumption|].
    + destruct Hrun as (_ & _ & _ & _ & H5). simpl. eapply H5; eassumption.
    + intros c' Hv'. rewrite Hv in Hv'. injection Hv' as <-. assumption.
Qed.

Lemma membership_check_fails_closed_witness :
  run (refresh SECRET (env_at 1700000005000) (Some t_alice))
      (mkWorld (table w_alice) [None; Some (mkError "TimeoutError" "socket hang up")]) =
  (failure 403 "Invalid refresh token", mkWorld (table w_alice) []).
Proof.
  refine (proj1 (proj2 (membership_check_fails_closed SECRET (env_at 1700000005000)
            t_alice _ _
            (mkWorld (table w_alice) [None; Some (mkError "TimeoutError" "socket hang up")])
            (mkError "TimeoutError" "socket hang up") _ _ _ _ _))).
  - vm_compute. reflexivity.
  - reflexivity.
  - vm_compute. reflexivity.
  - reflexivity.
  - reflexivity.
Defined.

(** ** Quiet worlds *)

Lemma quiet_fault w : quiet w -> fault w = None.
Proof.
  unfold quiet, fault. destruct (net w) as [|[e|] n]; try reflexivity.
  intros H. inversion H; subst. discriminate.
Qed.

Lemma quiet_after t w : quiet w -> quiet (after t w).
Proof.
  unfold quiet, after. simpl. destruct (net w) as [|o n]; simpl; [auto|].
  intros H. inversion H; assumption.
Qed.

(** ** Rotation *)

(** The token that a successful refresh puts in place of the presented one is
    signed for the second in which the refresh runs. *)
Lemma refresh_rotates_out JWT_SECRET env1 t w r1 w1 :
  run (refresh JWT_SECRET env1 (Some t)) w = (r1, w1) ->
  status r1 = 200 ->
  field "refreshToken" (body_of r1) <> Some (JTok t) ->
  forall env2 r2 w2,
    run (refresh JWT_SECRET env2 (Some t)) w1 = (r2, w2) ->
    status r2 = 403 /\ table w2 = table w1 /\
    field "token" (body_of r2) = None /\ field "refreshToken" (body_of r2) = None.
Proof.
  intros Hrun Hst Hnew env2 r2 w2 Hrun2.
  destruct (refresh_success _ _ _ _ _ _ Hrun Hst)
    as (t' & c & a & toks & [= <-] & Hv & Ht & L & T & M & Hf & Htab).
  assert (t <> Opaque "") as Hne by (intros ->; discriminate).
  eapply refresh_rejects in Hrun2; [|assumption|].
  - destruct Hrun2 as (H1 & H2 & H3 & H4 & _). repeat split; assumption.
  - intros c2 Hv2.
    assert (c2 = c) as ->.
    { unfold verify in Hv, Hv2. destruct t as [key c0|s]; [|discriminate].
      destruct (negb (String.eqb key JWT_SECRET)); [discriminate|].
      destruct (exp c0 <=? seconds (Date_now env1)); [discriminate|].
      destruct (exp c0 <=? seconds (Date_now env2)); [discriminate|]. congruence. }
    unfold stored_tokens. rewrite Htab, lookup_insert_eq. simpl.
    rewrite elem_of_app, list_elem_of_filter, list_elem_of_singleton.
    intros [[Hx _]|Hx]; [by apply Hx|].
    apply Hnew. rewrite Hf. congruence.
Qed.

(** Signed for the second of its own issue, the new token is the old one,
    and the old one stays recorded. *)
Lemma refresh_same_second JWT_SECRET env t w a toks now0 uname :
  table w !! uname = Some a ->
  refreshTokens a = Some toks ->
  t = refresh_token JWT_SECRET (id a) uname now0 ->
  t ∈ toks ->
  seconds (Date_now env) = seconds now0 ->
  quiet w ->
  status (run (refresh JWT_SECRET env (Some t)) w).1 = 200 /\
  field "refreshToken" (body_of (run (refresh JWT_SECRET env (Some t)) w).1) = Some (JTok t) /\
  t ∈ stored_tokens (table (run (refresh JWT_SECRET env (Some t)) w).2) uname.
Proof.
  intros L T -> M Hs Q.
  assert (verify (refresh_token JWT_SECRET (id a) uname now0) JWT_SECRET (Date_now env) =
          Ok (mkClaims (mkPayload (id a) uname (Some "refresh")) (seconds now0)
                       (seconds now0 + REFRESH_TOKEN_EXPIRES_IN))) as Hv.
  { apply verify_sign. rewrite Hs. unfold REFRESH_TOKEN_EXPIRES_IN. lia. }
  assert (bool_decide (refresh_token JWT_SECRET (id a) uname now0
                       ∈ stored_tokens (table w) uname) = true) as Hm.
  { apply bool_decide_eq_true_2. unfold stored_tokens. rewrite L. simpl. by rewrite T. }
  unfold refresh. rewrite present_token by discriminate.
  autorewrite with run. rewrite Hv. simpl. autorewrite with run.
  rewrite (quiet_fault w Q), L. simpl. autorewrite with run. simpl.
  rewrite (quiet_fault _ (quiet_after _ _ Q)), Hm. simpl.
  autorewrite with run. simpl.
  rewrite (quiet_fault _ (quiet_after _ _ (quiet_after _ _ Q))), Hm. simpl.
  rewrite (quiet_fault _ (quiet_after _ _ (quiet_after _ _ (quiet_after _ _ Q)))). simpl.
  autorewrite with run. simpl.
  rewrite (quiet_fault _
             (quiet_after _ _ (quiet_after _ _ (quiet_after _ _ (quiet_after _ _ Q))))).
  simpl. autorewrite with run. simpl.
  split; [reflexivity|]. split.
  - unfold refresh_token, sign. rewrite Hs. reflexivity.
  - unfold stored_tokens. rewrite lookup_insert_eq. simpl. rewrite lookup_insert_eq. simpl.
    rewrite elem_of_app, list_elem_of_singleton. right.
    unfold refresh_token, sign. rewrite Hs. reflexivity.
Qed.

(** C1 at the failing input: a refresh made within the second in which the
    presented token was issued signs the very same token, removes it and
    records it again; a second refresh with that token is answered 200. *)
Lemma refresh_within_issue_second_redeems_twice :
  let first := run (refresh SECRET (env_at 1700000000900) (Some t_alice)) w_alice in
  status first.1 = 200 /\
  field "refreshToken" (body_of first.1) = Some (JTok t_alice) /\
  stored_tokens (table first.2) "alice" = [t_alice] /\
  status (run (refresh SECRET (env_at 1700000005000) (Some t_alice)) first.2).1 = 200.
Proof. vm_compute. repeat split; reflexivity. Qed.

(** ** Logout *)

Lemma authenticate_reply JWT_SECRET cognito hdr now r :
  authenticateToken JWT_SECRET cognito hdr now = Reply r -> status r <> 200.
Proof.
  unfold authenticateToken.
  destruct (present (h ← hdr; h !! 1%nat)) as [tok|]; [|intros [= <-]; discriminate].
  assert (legacy_jwt JWT_SECRET tok now = Reply r -> status r <> 200) as Hl.
  { unfold legacy_jwt. destruct (verify tok JWT_SECRET now) as [c|e]; [discriminate|].
    intros [= <-]. simpl. destruct (String.eqb (name e) "TokenExpiredError"); discriminate. }
  destruct cognito as [v|]; [|exact Hl].
  destruct (v tok); [discriminate|exact Hl].
Qed.

Lemma authenticate_local_access JWT_SECRET cognito uid k now0 now :
  seconds now < seconds now0 + JWT_EXPIRES_IN ->
  exists u, authenticateToken JWT_SECRET cognito
              (bearer (access_token JWT_SECRET uid k now0)) now = Next u.
Proof.
  intros Hlt. unfold authenticateToken, bearer. simpl.
  assert (legacy_jwt JWT_SECRET (access_token JWT_SECRET uid k now0) now =
          Next (LegacyUser (mkClaims (mkPayload uid k None) (seconds now0)
                                     (seconds now0 + JWT_EXPIRES_IN)))) as Hl.
  { unfold legacy_jwt, access_token. rewrite verify_sign by assumption. reflexivity. }
  destruct cognito as [v|]; [|eauto].
  destruct (v _); eauto.
Qed.

(** C4. A logout that is answered 200 leaves the user with an empty list of
    refresh tokens, so that every refresh token of that user is answered 403
    from then on (403 "Invalid refresh token" when it still verifies), with no
    token issued and the table untouched; an access token of that user that
    has not expired is still accepted by the authenticator, which does not
    read the table. *)
Theorem logout_revokes_refresh_tokens JWT_SECRET cognito hdr env w r w1 :
  run (logout_route JWT_SECRET cognito hdr env) w = (r, w1) ->
  status r = 200 ->
  exists user k,
    authenticateToken JWT_SECRET cognito hdr (Date_now env) = Next user /\
    req_username user = Some k /\
    table w1 !! k ≫= refreshTokens = Some [] /\
    (forall env2 t r2 w2,
       t <> Opaque "" ->
       (forall c, verify t JWT_SECRET (Date_now env2) = Ok c -> p_username (payload c) = k) ->
       run (refresh JWT_SECRET env2 (Some t)) w1 = (r2, w2) ->
       status r2 = 403 /\ table w2 = table w1 /\
       field "token" (body_of r2) = None /\ field "refreshToken" (body_of r2) = None /\
       (forall c, verify t JWT_SECRET (Date_now env2) = Ok c ->
                  p_type (payload c) = Some "refresh" -> fault w1 = None ->
                  r2 = failure 403 "Invalid refresh token")) /\
    (forall uid now0 now,
       seconds now < seconds now0 + JWT_EXPIRES_IN ->
       exists u, authenticateToken JWT_SECRET cognito
                   (bearer (access_token JWT_SECRET uid k now0)) now = Next u).
Proof.
  unfold logout_route. intros Hrun Hst.
  destruct (authenticateToken JWT_SECRET cognito hdr (Date_now env)) as [user|r0] eqn:Ha.
  2:{ autorewrite with run in Hrun. injection Hrun as <- <-.
      exfalso. eapply authenticate_reply; eassumption. }
  unfold logout, with_key in Hrun. autorewrite with run in Hrun.
  destruct (req_username user) as [k|] eqn:Hk.
  2:{ autorewrite with run in Hrun. injection Hrun as <- <-. discriminate. }
  autorewrite with run in Hrun.
  destruct (fault w) as [e|]; [injection Hrun as <- <-; discriminate|].
  simpl in Hrun. autorewrite with run in Hrun. injection Hrun as <- <-.
  exists user, k. split; [reflexivity|]. split; [assumption|].
  assert (table (after (<[k := assign (default no_attrs (table w !! k))
                                       (SetRefreshTokens [])]> (table w)) w) !! k
          ≫= refreshTokens = Some []) as Hempty.
  { simpl. rewrite lookup_insert_eq. reflexivity. }
  split; [exact Hempty|]. split.
  - intros env2 t r2 w2 Hne Hk2 Hrun2.
    eapply refresh_rejects in Hrun2; [exact Hrun2|assumption|].
    intros c Hv. rewrite (Hk2 c Hv). unfold stored_tokens. simpl.
    rewrite lookup_insert_eq. simpl. apply not_elem_of_nil.
  - intros uid now0 now Hlt. apply authenticate_local_access. assumption.
Qed.

Lemma logout_revokes_refresh_tokens_witness :
  (run (refresh SECRET (env_at 1700000005000) (Some t_alice)) w_logout).1 =
  failure 403 "Invalid refresh token".
Proof.
  destruct (logout_revokes_refresh_tokens SECRET None (bearer a_alice)
              (env_at 1700000003000) w_alice
              (Json 200 [("success", JBool true);
                         ("message", JStr "Logged out successfully")]) w_logout)
    as (user & k & Ha & Hk & _ & Href & _).
  - vm_compute. reflexivity.
  - reflexivity.
  - vm_compute in Ha. injection Ha as <-. vm_compute in Hk. injection Hk as <-.
    destruct (run (refresh SECRET (env_at 1700000005000) (Some t_alice)) w_logout)
      as [r2 w2] eqn:E.
    destruct (Href (env_at 1700000005000) t_alice r2 w2) as (_ & _ & _ & _ & H5).
    + discriminate.
    + intros c Hc. vm_compute in Hc. injection Hc as <-. reflexivity.
    + exact E.
    + simpl. eapply H5; [vm_compute; reflexivity|reflexivity|reflexivity].
Defined.

Arguments update : simpl never.
Arguments assign : simpl never.

(** ** E-mail verification *)

Lemma scan_order_elem (t : gmap string Attrs) (it : Item) :
  it ∈ scan_order t <-> t !! username it = Some (attrs it).
Proof.
  unfold scan_order. rewrite list_elem_of_fmap. split.
  - intros ([k a] & -> & Hin). rewrite merge_sort_Permutation in Hin.
    apply elem_of_map_to_list in Hin. exact Hin.
  - intros H. exists (username it, attrs it). split; [by destruct it|].
    rewrite merge_sort_Permutation. apply elem_of_map_to_list. exact H.
Qed.

Lemma scan_hit (t : gmap string Attrs) tok limit u :
  head (filter (holds_token tok) (take limit (scan_order t))) = Some u ->
  t !! username u = Some (attrs u) /\ emailVerificationToken (attrs u) = Some tok.
Proof.
  intros H%head_Some_elem_of. apply list_elem_of_filter in H as [Hh Hin].
  split; [|exact Hh]. apply scan_order_elem. eapply subseteq_take. exact Hin.
Qed.

Lemma scan_miss (t : gmap string Attrs) tok limit :
  (forall k a, t !! k = Some a -> emailVerificationToken a <> Some tok) ->
  filter (holds_token tok) (take limit (scan_order t)) = [].
Proof.
  intros Hno. apply elem_of_nil_inv. intros u [Hh Hin]%list_elem_of_filter.
  apply subseteq_take, scan_order_elem in Hin. exact (Hno _ _ Hin Hh).
Qed.

Lemma run_getUserByVerificationToken tok w :
  run (getUserByVerificationToken tok) w =
  match fault w with
  | Some e => (Throw e, after (table w) w)
  | None => (Ok (head (filter (holds_token tok) (take 1 (scan_order (table w))))),
             after (table w) w)
  end.
Proof.
  unfold getUserByVerificationToken. autorewrite with run. rewrite run_send.
  destruct (fault w); reflexivity.
Qed.

#[global] Hint Rewrite run_getUserByVerificationToken : run.

Lemma truthy_nonempty (s : string) : s <> "" -> truthy (Some s) = Some s.
Proof.
  intros H. unfold truthy. destruct (String.eqb_spec s ""); [contradiction|reflexivity].
Qed.

(** C5. A verification that is answered 200 found a user who held the token,
    leaves that user with [emailVerified = true] and no verification token,
    touches no other user and returns that user; when the token was held by
    one user only, no user holds it afterwards. A token that no user holds,
    because it never was issued or because it has been consumed, is answered
    404 "Invalid or expired verification token" unless the scan itself
    throws; the answer depends on nothing else, and the table is not
    touched. *)
Theorem verification_token_single_use JWT_SECRET env tok w r w' :
  tok <> "" ->
  run (verify_email JWT_SECRET env (Some tok)) w = (r, w') ->
  (status r = 200 ->
     exists k a a',
       table w !! k = Some a /\ emailVerificationToken a = Some tok /\
       table w' !! k = Some a' /\
       emailVerified a' = Some true /\ emailVerificationToken a' = None /\
       (forall k', k' <> k -> table w' !! k' = table w !! k') /\
       field "user" (body_of r) =
         Some (JObj [("id", JOpt JStr (id a)); ("username", JStr k);
                     ("email", JOpt JStr (email a)); ("emailVerified", JBool true);
                     ("createdAt", JOpt JDate (createdAt a))]) /\
       ((forall k2 a2, table w !! k2 = Some a2 ->
                       emailVerificationToken a2 = Some tok -> k2 = k) ->
        forall k2 a2, table w' !! k2 = Some a2 -> emailVerificationToken a2 <> Some tok)) /\
  ((forall k a, table w !! k = Some a -> emailVerificationToken a <> Some tok) ->
     table w' = table w /\
     r = match fault w with
         | Some e => failure_with 500 "Email verification failed" e
         | None => failure 404 "Invalid or expired verification token"
         end).
Proof.
  intros Hne Hrun. unfold verify_email in Hrun.
  rewrite (truthy_nonempty tok Hne) in Hrun. autorewrite with run in Hrun.
  split.
  - intros Hst.
    destruct (fault w) as [e|]; [injection Hrun as <- <-; discriminate|].
    destruct (head _) as [u|] eqn:Hu; simpl in Hrun.
    2:{ autorewrite with run in Hrun. injection Hrun as <- <-. discriminate. }
    apply scan_hit in Hu as [L Htok]. destruct u as [k a]. simpl in L, Htok, Hrun.
    autorewrite with run in Hrun. simpl in Hrun.
    repeat match type of Hrun with
           | context [match fault ?x with _ => _ end] =>
               destruct (fault x) as [?e|];
               [solve [injection Hrun as <- <-; discriminate]|]
           end.
    simpl in Hrun. autorewrite with run in Hrun. simpl in Hrun.
    repeat match type of Hrun with
           | context [match fault ?x with _ => _ end] =>
               destruct (fault x) as [?e|];
               [solve [injection Hrun as <- <-; discriminate]|]
           end.
    simpl in Hrun. autorewrite with run in Hrun. injection Hrun as <- <-.
    unfold after; cbn [table body_of]. rewrite !lookup_insert_eq, L.
    change (default no_attrs (Some a)) with a.
    eexists k, a, _. split; [exact L|]. split; [assumption|].
    split; [apply lookup_insert_eq|]. split; [reflexivity|]. split; [reflexivity|].
    split; [|split; [reflexivity|]].
    + intros k' Hk'. rewrite !lookup_insert_ne by congruence. reflexivity.
    + intros Huniq k2 a2 L2. destruct (decide (k2 = k)) as [->|Hk2].
      * rewrite lookup_insert_eq in L2. injection L2 as <-. discriminate.
      * rewrite !lookup_insert_ne in L2 by congruence. intros H2. apply Hk2. eauto.
  - intros Hno. rewrite (scan_miss _ _ 1%nat Hno) in Hrun.
    destruct (fault w) as [e|]; simpl in Hrun; autorewrite with run in Hrun;
      injection Hrun as <- <-; split; reflexivity.
Qed.

Lemma verification_token_single_use_witness :
  (exists k a', table w_bob_verified !! k = Some a' /\
                emailVerified a' = Some true /\ emailVerificationToken a' = None) /\
  (run (verify_email SECRET (env_at 1700000090000) (Some "3f2b8c1e-uuid")) w_bob_verified).1 =
    failure 404 "Invalid or expired verification token".
Proof.
  split.
  - destruct (proj1 (verification_token_single_use SECRET (env_at 1700000060000)
                       "3f2b8c1e-uuid" w_bob
                       (run (verify_email SECRET (env_at 1700000060000)
                                          (Some "3f2b8c1e-uuid")) w_bob).1
                       w_bob_verified ltac:(discriminate) ltac:(vm_compute; reflexivity))
                    ltac:(vm_compute; reflexivity))
      as (k & a & a' & _ & _ & L' & Hv & Ht & _).
    exists k, a'. repeat split; assumption.
  - destruct (run (verify_email SECRET (env_at 1700000090000) (Some "3f2b8c1e-uuid"))
                  w_bob_verified) as [r w'] eqn:E.
    destruct (proj2 (verification_token_single_use SECRET (env_at 1700000090000)
                       "3f2b8c1e-uuid" w_bob_verified r w'
                       ltac:(discriminate) E)) as [_ Hr].
    + change (map_Forall (fun _ a => emailVerificationToken a <> Some "3f2b8c1e-uuid")
                         (table w_bob_verified)).
      apply (bool_decide_unpack _). vm_compute. exact I.
    + exact Hr.
Defined.

Arguments truthy : simpl never.

(** ** Registration *)

Lemma run_createUser userData w :
  run (createUser userData) w =
  let a := attrs userData in
  let userItem :=
    mkItem (username userData)
      (mkAttrs (Some (default (username userData) (truthy (id a)))) (password a)
               (Some (default "" (truthy (email a)))) (createdAt a)
               (Some (default [] (refreshTokens a)))
               (Some (default false (emailVerified a)))
               (truthy (emailVerificationToken a))) in
  match fault w with
  | Some e =>
      (Throw (if String.eqb (name e) "ConditionalCheckFailedException"
              then mkError "Error" "Username already exists" else e),
       after (table w) w)
  | None =>
      match table w !! username userData with
      | Some _ => (Throw (mkError "Error" "Username already exists"), after (table w) w)
      | None => (Ok userItem, after (<[username userData := attrs userItem]> (table w)) w)
      end
  end.
Proof.
  unfold createUser. autorewrite with run. rewrite run_send.
  destruct (fault w) as [e|].
  - destruct (String.eqb (name e) "ConditionalCheckFailedException");
      autorewrite with run; reflexivity.
  - simpl. destruct (table w !! username userData); simpl; autorewrite with run; reflexivity.
Qed.

#[global] Hint Rewrite run_createUser : run.

(** C9. With a free username and a password, registration stores the user
    with a pending verification token and answers 201. It issues (and
    records) a token pair exactly when no e-mail address was given or the
    verification message was sent, and the pair is then the one signed for
    the new user: under the secret of the server the access token verifies
    for 24 hours and the refresh token for 7 days, each with the id and the
    name of the user, the second with the type [refresh], and the refresh
    token is the one recorded. When an address was given and sending failed,
    both token fields of the answer are [null], no refresh token is
    recorded, and the user is in the table all the same. *)
Theorem registration_issues_tokens_iff JWT_SECRET env b_username b_password b_email w k pw :
  truthy b_username = Some k ->
  truthy b_password = Some pw ->
  table w !! k = None ->
  quiet w ->
  uuidv4 env <> "" ->
  let r := (run (register JWT_SECRET env b_username b_password b_email) w).1 in
  let w' := (run (register JWT_SECRET env b_username b_password b_email) w).2 in
  status r = 201 /\
  (exists a, table w' !! k = Some a /\
             emailVerificationToken a = Some (uuidv4 env) /\
             emailVerified a = Some false /\
             password a = Some (bcrypt_hash pw (genSalt env))) /\
  ((exists t, field "token" (body_of r) = Some (JTok t)) <->
     (truthy b_email = None \/ sendMail_ok env = true)) /\
  ((exists t, field "refreshToken" (body_of r) = Some (JTok t) /\
              stored_tokens (table w') k = [t]) <->
     (truthy b_email = None \/ sendMail_ok env = true)) /\
  (is_Some (truthy b_email) -> sendMail_ok env = false ->
     field "token" (body_of r) = Some JNull /\
     field "refreshToken" (body_of r) = Some JNull /\
     stored_tokens (table w') k = []) /\
  (truthy b_email = None \/ sendMail_ok env = true ->
     exists t rt,
       field "token" (body_of r) = Some (JTok t) /\
       field "refreshToken" (body_of r) = Some (JTok rt) /\
       stored_tokens (table w') k = [rt] /\
       (forall now, seconds now < seconds (Date_now env) + JWT_EXPIRES_IN ->
          verify t JWT_SECRET now =
          Ok (mkClaims (mkPayload (Some k) k None) (seconds (Date_now env))
                       (seconds (Date_now env) + JWT_EXPIRES_IN))) /\
       (forall now, seconds now < seconds (Date_now env) + REFRESH_TOKEN_EXPIRES_IN ->
          verify rt JWT_SECRET now =
          Ok (mkClaims (mkPayload (Some k) k (Some "refresh")) (seconds (Date_now env))
                       (seconds (Date_now env) + REFRESH_TOKEN_EXPIRES_IN))) /\
       (forall secret now, secret <> JWT_SECRET ->
          exists e1 e2, verify t secret now = Throw e1 /\ verify rt secret now = Throw e2)).
Proof.
  intros Hu Hp L Q Hid. cbv zeta.
  match goal with
  | |- ?A /\ ?B /\ ?C /\ ?D /\ ?E /\ ?F =>
      assert (A /\ B /\ C /\ D /\ E) as (H1 & H2 & H3 & H4 & H5);
        [|do 5 (split; [assumption|]); clear H1 H2 H3 H4 H5]
  end.
  2:{ intros Hissue. unfold register. rewrite Hu, Hp.
      autorewrite with run. rewrite (quiet_fault w Q), L. simpl.
      autorewrite with run. simpl.
      rewrite (quiet_fault _ (quiet_after _ _ Q)), L. simpl.
      unfold sendVerificationEmail.
      assert (negb (bool_decide (is_Some (truthy b_email))) ||
              match truthy b_email with
              | Some _ => sendMail_ok env
              | None => false
              end = true) as ->.
      { destruct Hissue as [-> | ->]; [reflexivity|].
        destruct (truthy b_email); [apply orb_true_r|reflexivity]. }
      autorewrite with run. simpl.
      rewrite (quiet_fault _ (quiet_after _ _ (quiet_after _ _ Q))). simpl.
      autorewrite with run. simpl.
      eexists _, _. split; [reflexivity|]. split; [reflexivity|]. split.
      { unfold stored_tokens. rewrite !lookup_insert_eq. reflexivity. }
      split; [intros now Hlt; apply verify_sign; exact Hlt|].
      split; [intros now Hlt; apply verify_sign; exact Hlt|].
      intros secret now Hne. unfold access_token, refresh_token, sign, verify.
      destruct (String.eqb_spec JWT_SECRET secret) as [->|_]; [contradiction|].
      simpl. eauto. }
  unfold register. rewrite Hu, Hp.
  autorewrite with run. rewrite (quiet_fault w Q), L. simpl.
  autorewrite with run. simpl.
  rewrite (quiet_fault _ (quiet_after _ _ Q)), L. simpl.
  rewrite (truthy_nonempty _ Hid).
  unfold sendVerificationEmail.
  destruct (truthy b_email) as [mail|] eqn:Hm; destruct (sendMail_ok env) eqn:Hs; simpl;
    autorewrite with run; simpl;
    try rewrite (quiet_fault _ (quiet_after _ _ (quiet_after _ _ Q))); simpl;
    autorewrite with run; simpl; unfold stored_tokens;
    rewrite ?lookup_insert_eq; simpl;
    (split; [reflexivity|]);
    (split; [eexists; split;
               [first [apply lookup_insert_eq|reflexivity]|repeat split; reflexivity]|]).
  all: repeat split; intros;
    repeat match goal with
           | H : exists _, _ |- _ => destruct H
           | H : _ /\ _ |- _ => destruct H
           | H : _ \/ _ |- _ => destruct H
           | H : is_Some None |- _ => destruct H
           end; try discriminate; try reflexivity; eauto.
Qed.

Lemma registration_issues_tokens_iff_witness :
  (status (run (register SECRET (env_at 1700000000100) (Some "bob") (Some "hunter22")
                         (Some "bob@example.com")) (mkWorld ∅ [])).1 = 201 /\
   field "token" (body_of (run (register SECRET (env_at 1700000000100) (Some "bob")
                                         (Some "hunter22") (Some "bob@example.com"))
                               (mkWorld ∅ [])).1) = Some JNull /\
   (exists a, table w_bob !! "bob" = Some a /\
              emailVerificationToken a = Some "3f2b8c1e-uuid")) /\
  (exists t rt,
     field "token" (body_of (run (register SECRET (env_at 1700000000100) (Some "alice")
                                           (Some "Secret123!") None)
                                 (mkWorld ∅ [])).1) = Some (JTok t) /\
     stored_tokens (table w_alice) "alice" = [rt] /\
     verify t SECRET 1700000003000 =
       Ok (mkClaims (mkPayload (Some "alice") "alice" None) 1700000000 1700086400)).
Proof.
  split.
  - destruct (registration_issues_tokens_iff SECRET (env_at 1700000000100) (Some "bob")
                (Some "hunter22") (Some "bob@example.com") (mkWorld ∅ []) "bob" "hunter22"
                eq_refl eq_refl (lookup_empty _) (Forall_nil_2 _) ltac:(discriminate))
      as (H1 & (a & La & Ha & _) & _ & _ & H5 & _).
    split; [exact H1|]. split.
    + apply H5; [eexists; reflexivity|reflexivity].
    + exists a. split; assumption.
  - destruct (registration_issues_tokens_iff SECRET (env_at 1700000000100) (Some "alice")
                (Some "Secret123!") None (mkWorld ∅ []) "alice" "Secret123!"
                eq_refl eq_refl (lookup_empty _) (Forall_nil_2 _) ltac:(discriminate))
      as (_ & _ & _ & _ & _ & H6).
    destruct (H6 (or_introl eq_refl)) as (t & rt & Ht & _ & Hs & Hv & _).
    exists t, rt. split; [exact Ht|]. split; [exact Hs|].
    apply (Hv 1700000003000). reflexivity.
Defined.

(** ** Share links *)

(** C8, as the code has it. A share token whose expiry lies strictly before
    the clock of the request is answered 410 "Shared link has expired" and
    removed from the map, so that later requests for it are answered 404. A
    token created for zero hours expires at the instant of its creation: it
    is turned away at any later instant, and still served at that very
    instant. *)
Theorem expired_share_is_evicted env token (m : gmap string SharedImage) si :
  m !! token = Some si ->
  (expiresAt si < Date_now env ->
     shared env token m = (failure 410 "Shared link has expired", delete token m) /\
     forall env', shared env' token (delete token m) =
                  (failure 404 "Shared link not found or expired", delete token m)) /\
  (forall env0 user i f (m0 : gmap string SharedImage) r,
     share env0 user i f (Some 0) m0 = (r, m) -> status r = 200 -> token = uuidv4 env0 ->
     expiresAt si = Date_now env0 /\
     (Date_now env0 < Date_now env -> status (shared env token m).1 = 410) /\
     (Date_now env = Date_now env0 ->
        shared env token m =
        (if pathExists env (processedPath (filename si))
         then SendFile "image/png" (processedPath (filename si))
         else failure 404 "Image file not found", m))).
Proof.
  intros L. split.
  - intros Hexp. split.
    + unfold shared. rewrite L.
      destruct (Z.ltb_spec (expiresAt si) (Date_now env)); [reflexivity|lia].
    + intros env'. unfold shared. rewrite lookup_delete_eq. reflexivity.
  - intros env0 user i f m0 r Hs Hst ->.
    assert (expiresAt si = Date_now env0) as He.
    { unfold share in Hs.
      destruct (truthy i); cbn beta iota in Hs;
        [|injection Hs as <- <-; discriminate].
      destruct (truthy f); cbn beta iota in Hs;
        [|injection Hs as <- <-; discriminate].
      destruct (readdir env0); cbn beta iota in Hs;
        [|injection Hs as <- <-; discriminate].
      destruct (List.find _ _); cbn beta iota in Hs;
        [|injection Hs as <- <-; discriminate].
      change (default 24 (Some 0)) with 0 in Hs.
      replace (Date_now env0 + 0 * 60 * 60 * 1000) with (Date_now env0) in Hs by lia.
      destruct (toISOString (Date_now env0)) as [iso|] eqn:Hiso; cbn beta iota in Hs;
        [|injection Hs as <- <-; discriminate].
      injection Hs as <- <-. rewrite lookup_insert_eq in L. injection L as <-.
      unfold toISOString in Hiso. simpl.
      destruct (Z.abs (Date_now env0) <=? 8640000000000000); congruence. }
    split; [exact He|]. split.
    + intros Hlt. unfold shared. rewrite L.
      destruct (Z.ltb_spec (expiresAt si) (Date_now env)); [reflexivity|lia].
    + intros Heq. unfold shared. rewrite L.
      destruct (Z.ltb_spec (expiresAt si) (Date_now env)); [lia|].
      destruct (pathExists env (processedPath (filename si))); reflexivity.
Qed.

Lemma expired_share_is_evicted_witness :
  shared (env_at 1700000010001) "3f2b8c1e-uuid" shares_zero =
    (failure 410 "Shared link has expired", delete "3f2b8c1e-uuid" shares_zero) /\
  (delete "3f2b8c1e-uuid" shares_zero : gmap string SharedImage) !! "3f2b8c1e-uuid" = None.
Proof.
  split.
  - refine (proj1 (proj1 (expired_share_is_evicted (env_at 1700000010001) "3f2b8c1e-uuid"
                            shares_zero
                            (mkSharedImage "img1" "img1-sepia.png" "sepia" (Some "alice")
                                           1700000010000 1700000010000) _) _)).
    + vm_compute. reflexivity.
    + vm_compute. reflexivity.
  - apply lookup_delete_eq.
Defined.

(** C8 as stated fails: a share token created with [expiresInHours = 0] is
    served to a request that reads the same millisecond on the clock. *)
Lemma zero_hour_share_is_served_at_creation_instant :
  status (share (env_at 1700000010000) u_alice (Some "img1") (Some "sepia") (Some 0) ∅).1
    = 200 /\
  shared (env_at 1700000010000) "3f2b8c1e-uuid" shares_zero =
    (SendFile "image/png" "processed/img1-sepia.png", shares_zero).
Proof. vm_compute. split; reflexivity. Qed.

(** ** Two refresh requests with the same token *)

Lemma perform_get k w :
  perform (GetCommand k) w =
  match fault w with
  | Some e => (Throw e, after (table w) w)
  | None => (Ok (mkItem k <$> table w !! k), after (table w) w)
  end.
Proof. destruct w as [T [|[e|] n]]; reflexivity. Qed.

Lemma perform_update k u w :
  perform (UpdateCommand k u) w =
  match fault w with
  | Some e => (Throw e, after (table w) w)
  | None =>
      (Ok (mkItem k (update (default no_attrs (table w !! k)) u)),
       after (<[k := update (default no_attrs (table w !! k)) u]> (table w)) w)
  end.
Proof. destruct w as [T [|[e|] n]]; reflexivity. Qed.

Lemma par_app {A B} (s1 s2 : list bool) (p : Prog A) (q : Prog B) (w : World) :
  par (s1 ++ s2) p q w =
  let '(p', q', w') := par s1 p q w in par s2 p' q' w'.
Proof.
  revert p q w. induction s1 as [|[] s1 IH]; intros p q w; simpl.
  - reflexivity.
  - destruct p as [a|R c k]; [apply IH|]. destruct (perform c w). apply IH.
  - destruct q as [b|R c k]; [apply IH|]. destruct (perform c w). apply IH.
Qed.

Lemma par_answered {A B} (s : list bool) (a : A) (q : Prog B) (w : World) :
  (par s (Ret a) q w).1.1 = Ret a.
Proof.
  revert q w. induction s as [|[] s IH]; intros q w; simpl.
  - reflexivity.
  - apply IH.
  - destruct q as [b|R c k]; [apply IH|]. destruct (perform c w). apply IH.
Qed.

(** Once the invariant holds and both requests maintain it, it holds after
    every interleaving of them. *)
Lemma par_under {A B} (I : World -> Prop) (P : A -> Prop) (Q : B -> Prop)
    (s : list bool) (p : Prog A) (q : Prog B) (w : World) :
  I w -> under I P p -> under I Q q ->
  I (par s p q w).2 /\ under I P (par s p q w).1.1 /\ under I Q (par s p q w).1.2.
Proof.
  revert p q w. induction s as [|[] s IH]; intros p q w Hw Hp Hq; simpl.
  - auto.
  - destruct p as [a|R c k]; [apply IH; assumption|].
    destruct (Hp w Hw) as [Hw' Hk]. destruct (perform c w) as [r w1].
    apply IH; assumption.
  - destruct q as [b|R c k]; [apply IH; assumption|].
    destruct (Hq w Hw) as [Hw' Hk]. destruct (perform c w) as [r w1].
    apply IH; assumption.
Qed.

(** The first request makes its sends up to the removal while the second one
    makes at most its first send. *)
Lemma par_removes (I : World -> Prop) (Q : Response -> Prop) (T : gmap string Attrs)
    (s : list bool) :
  forall (n : nat) (p q : Prog Response) (w : World),
    removes n I T p -> table w = T ->
    count_occ bool_dec s true = S n ->
    (starts I Q q /\ (count_occ bool_dec s false <= 1)%nat) \/
    (under I Q q /\ count_occ bool_dec s false = 0%nat) ->
    (exists r, (par s p q w).1.1 = Ret r /\ status r <> 200) \/
    (I (par s p q w).2 /\ under I (fun _ => True) (par s p q w).1.1 /\
     under I Q (par s p q w).1.2).
Proof.
  induction s as [|b s IH]; intros n p q w Hp HT Hc Hq; [discriminate|].
  destruct b.
  - (* the first request moves *)
    simpl in Hc. injection Hc as Hc.
    assert (under I Q q /\ count_occ bool_dec s false = 0%nat \/
            starts I Q q /\ (count_occ bool_dec s false <= 1)%nat) as Hq'.
    { simpl in Hq. tauto. }
    destruct p as [r|R c k]; simpl.
    { left. exists r. split; [apply par_answered|exact Hp]. }
    specialize (Hp w HT). destruct (perform c w) as [res w1]. simpl in Hp.
    destruct n as [|n].
    + destruct Hp as [(r & -> & Hr)|[Hw1 Hk]].
      * left. exists r. split; [apply par_answered|exact Hr].
      * right.
        assert (under I Q q) as Hu by (destruct Hq' as [[? _]|[[? _] _]]; assumption).
        apply par_under; assumption.
    + destruct Hp as [HT1 Hk].
      apply (IH n (k res) q w1 Hk HT1 Hc). tauto.
  - (* the second request moves *)
    simpl in Hc.
    destruct Hq as [[Hq Hf]|[_ Hf]]; [|simpl in Hf; discriminate].
    simpl in Hf. assert (count_occ bool_dec s false = 0%nat) as Hf0 by lia.
    destruct q as [r|R c k]; simpl.
    { apply (IH n p (Ret r) w Hp HT Hc). right. split; [apply Hq|assumption]. }
    destruct Hq as [_ Hq]. specialize (Hq w). destruct (perform c w) as [res w1].
    simpl in Hq. destruct Hq as [HT1 Hk].
    apply (IH n p (k res) w1 Hp); [congruence|assumption|]. right. split; assumption.
Qed.

(** Unfolding a program up to its next [send]. *)
Lemma bind_Ok {A B} (a : A) (f : A -> Async B) : bind (Ret (Ok a)) f = f a.
Proof. reflexivity. Qed.
Lemma bind_Throw {A B} (e : Error) (f : A -> Async B) : bind (Ret (Throw e)) f = Ret (Throw e).
Proof. reflexivity. Qed.
Lemma bind_Send {A B R} (c : Command R) k (f : A -> Async B) :
  bind (Send c k) f = Send c (fun r => bind (k r) f).
Proof. reflexivity. Qed.
Lemma try_catch_Ok {A} (a : A) h : try_catch (Ret (Ok a)) h = Ret (Ok a).
Proof. reflexivity. Qed.
Lemma try_catch_Throw {A} (e : Error) (h : Error -> Async A) :
  try_catch (Ret (Throw e)) h = h e.
Proof. reflexivity. Qed.
Lemma try_catch_Send {A R} (c : Command R) k (h : Error -> Async A) :
  try_catch (Send c k) h = Send c (fun r => try_catch (k r) h).
Proof. reflexivity. Qed.
Lemma handle_Ok {A} (a : A) h : handle (Ret (Ok a)) h = Ret a.
Proof. reflexivity. Qed.
Lemma handle_Throw {A} (e : Error) (h : Error -> A) : handle (Ret (Throw e)) h = Ret (h e).
Proof. reflexivity. Qed.
Lemma handle_Send {A R} (c : Command R) k (h : Error -> A) :
  handle (Send c k) h = Send c (fun r => handle (k r) h).
Proof. reflexivity. Qed.

Create Rewrite HintDb prog.
#[global] Hint Rewrite @bind_Ok @bind_Throw @bind_Send @try_catch_Ok @try_catch_Throw
  @try_catch_Send @handle_Ok @handle_Throw @handle_Send : prog.

Ltac prog :=
  repeat (progress (unfold getUserByUsername, hasRefreshToken, removeRefreshToken,
                      addRefreshToken, send, ret, throw;
                    cbn [negb]; autorewrite with prog)).

Lemma verify_Ok_inv t secret now c :
  verify t secret now = Ok c -> t = Signed secret c.
Proof.
  unfold verify. destruct t as [key c0|s]; [|discriminate].
  destruct (String.eqb_spec key secret) as [->|]; simpl; [|discriminate].
  destruct (exp c0 <=? seconds now); [discriminate|]. congruence.
Qed.

(** The request that comes second: whatever its first lookup returns, it is
    refused as soon as the token is not recorded. *)
Lemma refresh_starts JWT_SECRET env t :
  t <> Opaque "" ->
  starts (absent t) refusal (refresh JWT_SECRET env (Some t)).
Proof.
  intros Hne. unfold refresh. rewrite (present_token t Hne).
  destruct (verify t JWT_SECRET (Date_now env)) as [c|e] eqn:Hv; prog.
  2:{ split; [|exact I]. repeat split. }
  destruct (decide (p_type (payload c) = Some "refresh")) as [Ht|Ht].
  2:{ rewrite bool_decide_eq_false_2 by assumption. prog.
      split; [|exact I]. repeat split. }
  rewrite bool_decide_eq_true_2 by assumption. prog.
  pose proof (verify_Ok_inv _ _ _ _ Hv) as Ht'.
  match goal with
  | |- starts _ _ (Send _ ?K) =>
      assert (forall res, under (absent t) refusal (K res)) as HK
  end.
  { intros [[u|]|e]; prog; try (repeat split; fail).
    intros w Hw. rewrite perform_get.
    destruct (fault w) as [e|]; simpl; prog.
    - split; [exact Hw|repeat split].
    - split; [exact Hw|].
      destruct (table w !! p_username (payload c)) as [a|] eqn:L; simpl; prog;
        [|repeat split].
      destruct (refreshTokens a) as [toks|] eqn:T; prog; [|repeat split].
      rewrite bool_decide_eq_false_2; [prog; repeat split|].
      specialize (Hw _ _ Ht'). unfold stored_tokens in Hw. rewrite L in Hw. simpl in Hw.
      rewrite T in Hw. exact Hw. }
  split.
  - intros w Hw. rewrite perform_get.
    destruct (fault w); cbn [fst snd]; (split; [exact Hw|apply HK]).
  - intros w. rewrite perform_get.
    destruct (fault w); cbn [fst snd]; (split; [reflexivity|apply HK]).
Qed.

(** The request that comes first: three reads, then the write that takes the
    token out; the token it records afterwards is another one. *)
Lemma refresh_removes JWT_SECRET env t T :
  t <> Opaque "" ->
  (forall key c, t = Signed key c -> iat c <> seconds (Date_now env)) ->
  removes 3 (absent t) T (refresh JWT_SECRET env (Some t)).
Proof.
  intros Hne Hfresh. unfold refresh. rewrite (present_token t Hne).
  destruct (verify t JWT_SECRET (Date_now env)) as [c|e] eqn:Hv; prog;
    [|discriminate].
  destruct (decide (p_type (payload c) = Some "refresh")) as [Ht|Ht].
  2:{ rewrite bool_decide_eq_false_2 by assumption. prog. discriminate. }
  rewrite bool_decide_eq_true_2 by assumption. prog.
  pose proof (verify_Ok_inv _ _ _ _ Hv) as Ht'.
  set (k := p_username (payload c)) in *.
  (* the lookup of the user *)
  intros w1 <-. rewrite perform_get. destruct (fault w1) as [e|]; cbn [fst snd]; prog;
    (split; [reflexivity|]); [discriminate|].
  destruct (table w1 !! k) as [a|] eqn:L; cbn [fmap option_fmap option_map]; prog;
    [|discriminate].
  (* the membership check *)
  intros w2 HT2. rewrite perform_get, HT2.
  destruct (fault w2) as [e|]; cbn [fst snd]; prog; (split; [reflexivity|]); [discriminate|].
  rewrite L. cbn [fmap option_fmap option_map attrs]; prog.
  destruct (refreshTokens a) as [toks|] eqn:Htoks; prog; [|discriminate].
  destruct (decide (t ∈ toks)) as [Hin|Hin].
  2:{ rewrite bool_decide_eq_false_2 by assumption. prog. discriminate. }
  rewrite bool_decide_eq_true_2 by assumption. prog.
  (* the read of removeRefreshToken *)
  intros w3 HT3. rewrite perform_get, HT3.
  destruct (fault w3) as [e|]; cbn [fst snd]; prog; (split; [reflexivity|]); [discriminate|].
  rewrite L. cbn [fmap option_fmap option_map attrs]; prog. rewrite Htoks.
  rewrite filter_length_member, bool_decide_eq_true_2 by assumption. prog.
  (* the write of removeRefreshToken *)
  intros w4 HT4. rewrite perform_update, HT4.
  destruct (fault w4) as [e|]; cbn [fst snd]; prog.
  { left. eexists. split; [reflexivity|discriminate]. }
  right. rewrite L. split.
  - intros key c' Hc'. assert (c' = c) as -> by congruence. fold k.
    unfold stored_tokens, after. cbn [table]. rewrite lookup_insert_eq. simpl.
    rewrite list_elem_of_filter. intros [Hx _]. by apply Hx.
  - (* the write of addRefreshToken *)
    intros w5 Hw5. rewrite perform_update.
    destruct (fault w5) as [e|]; cbn [fst snd]; prog; (split; [|exact I]).
    + exact Hw5.
    + intros key c' Hc'. specialize (Hw5 key c' Hc').
      assert (c' = c) as -> by congruence. fold k in Hw5 |- *.
      unfold stored_tokens, after in *. cbn [table]. rewrite lookup_insert_eq.
      cbn [username attrs]. simpl.
      rewrite elem_of_app, list_elem_of_singleton. intros [Hx|Hx].
      * apply Hw5. destruct (table w5 !! k) as [a5|]; simpl in *; [|inversion Hx].
        exact Hx.
      * apply (Hfresh _ _ Ht'). rewrite Ht' in Hx. unfold refresh_token, sign in Hx.
        injection Hx as Hx. rewrite Hx. reflexivity.
Qed.




(** * Further properties of the code *)

Ltac calm :=
  repeat match goal with
         | |- context [fault ?x] =>
             rewrite (quiet_fault x) by (repeat apply quiet_after; assumption)
         end.

Lemma truthy_default (o : option string) :
  default "" (truthy (Some (default "" (truthy o)))) = default "" (truthy o).
Proof.
  unfold truthy. destruct o as [s|]; simpl; [|reflexivity].
  destruct (String.eqb_spec s ""); simpl; [reflexivity|].
  destruct (String.eqb_spec s ""); [contradiction|reflexivity].
Qed.

(** ** Passwords and their hashes *)

Lemma bcrypt_compare_hash p' p salt :
  bcrypt_compare p' (bcrypt_hash p salt) = bool_decide (bcrypt_key p' = bcrypt_key p).
Proof. reflexivity. Qed.

Lemma nul_terminated_inj (l l' x x' : list Ascii.ascii) z :
  z ∉ l -> z ∉ l' -> (l ++ z :: x = l' ++ z :: x')%list -> l = l'.
Proof.
  revert l'. induction l as [|a l IH]; intros [|c l'] Hl Hl' E; simpl in E.
  - reflexivity.
  - injection E as -> _. contradiction Hl'. left.
  - injection E as -> _. contradiction Hl. left.
  - injection E as -> E. f_equal. apply IH; [| |exact E].
    + intros H. apply Hl. right. exact H.
    + intros H. apply Hl'. right. exact H.
Qed.

Lemma length_list_ascii_of_string (p : string) :
  length (String.list_ascii_of_string p) = String.length p.
Proof. induction p as [|c p IH]; simpl; congruence. Qed.

Lemma list_ascii_of_string_app (a b : string) :
  String.list_ascii_of_string (a +:+ b) =
  (String.list_ascii_of_string a ++ String.list_ascii_of_string b)%list.
Proof. induction a as [|c a IH]; simpl; [reflexivity|]. rewrite IH. reflexivity. Qed.

(** The key material of a password shorter than 72 bytes starts with the
    password and its NUL. *)
Lemma bcrypt_key_prefix p :
  (String.length p < 72)%nat ->
  exists y, bcrypt_key p = (String.list_ascii_of_string p ++ Ascii.zero :: y)%list.
Proof.
  intros Hlen. rewrite <- length_list_ascii_of_string in Hlen. unfold bcrypt_key.
  set (key := (String.list_ascii_of_string p ++ [Ascii.zero])%list).
  assert (length key <= 72)%nat as Hk by (unfold key; rewrite length_app; simpl; lia).
  change (replicate 72 key) with (key :: replicate 71 key). rewrite concat_cons.
  rewrite take_app, (take_ge key) by exact Hk.
  eexists. unfold key. rewrite <- app_assoc. reflexivity.
Qed.

Lemma bcrypt_key_plain_inj p p' :
  plain p -> plain p' -> bcrypt_key p = bcrypt_key p' -> p = p'.
Proof.
  intros [Hl Hz] [Hl' Hz'] E.
  destruct (bcrypt_key_prefix p Hl) as [y Hy].
  destruct (bcrypt_key_prefix p' Hl') as [y' Hy'].
  rewrite Hy, Hy' in E. apply nul_terminated_inj in E; [|assumption..].
  rewrite <- (String.string_of_list_ascii_of_string p),
          <- (String.string_of_list_ascii_of_string p'), E. reflexivity.
Qed.

(** Bytes past the 72nd are not read. *)
Lemma bcrypt_key_truncates p x :
  (72 <= String.length p)%nat -> bcrypt_key (p +:+ x) = bcrypt_key p.
Proof.
  intros Hlen. rewrite <- length_list_ascii_of_string in Hlen. unfold bcrypt_key.
  change (replicate 72) with (fun k : list Ascii.ascii => k :: replicate 71 k).
  cbv beta. rewrite !concat_cons, list_ascii_of_string_app, <- !app_assoc.
  rewrite !(take_app_le (String.list_ascii_of_string p)) by exact Hlen. reflexivity.
Qed.

(** ** Registration and login *)

(** In a quiet world, with a free username, registration leaves the user
    with the hash of the password. *)
Lemma register_quiet JWT_SECRET env k pw b_email w :
  k <> "" -> pw <> "" -> table w !! k = None -> quiet w ->
  exists a,
    table (run (register JWT_SECRET env (Some k) (Some pw) b_email) w).2 !! k = Some a /\
    id a = Some k /\
    password a = Some (bcrypt_hash pw (genSalt env)) /\
    email a = Some (default "" (truthy b_email)) /\
    createdAt a = Some (Date_now env) /\
    emailVerified a = Some false /\
    (forall k', k' <> k ->
       table (run (register JWT_SECRET env (Some k) (Some pw) b_email) w).2 !! k' =
       table w !! k') /\
    quiet (run (register JWT_SECRET env (Some k) (Some pw) b_email) w).2.
Proof.
  intros Hk Hpw L Q. unfold register.
  rewrite (truthy_nonempty k Hk), (truthy_nonempty pw Hpw).
  autorewrite with run. calm. rewrite L. simpl. autorewrite with run. simpl. calm.
  rewrite L. simpl. rewrite (truthy_nonempty k Hk), truthy_default.
  destruct (negb (bool_decide (is_Some (truthy b_email))) || _); simpl;
    autorewrite with run; simpl; calm; simpl; autorewrite with run; simpl.
  - rewrite !lookup_insert_eq. eexists. split; [reflexivity|].
    do 5 (split; [reflexivity|]). split.
    + intros k' Hk'. rewrite !lookup_insert_ne by congruence. reflexivity.
    + repeat apply quiet_after; assumption.
  - rewrite !lookup_insert_eq. eexists. split; [reflexivity|].
    do 5 (split; [reflexivity|]). split.
    + intros k' Hk'. rewrite !lookup_insert_ne by congruence. reflexivity.
    + repeat apply quiet_after; assumption.
Qed.

Lemma login_outcome JWT_SECRET env k pw w :
  k <> "" -> pw <> "" -> fault w = None ->
  run (login JWT_SECRET env (Some k) (Some pw)) w =
  match table w !! k with
  | None => (failure 401 "Invalid credentials", after (table w) w)
  | Some a =>
      match password a with
      | None => (failure_with 500 "Login failed"
                   (mkError "Error" "Illegal arguments: string, undefined"),
                 after (table w) w)
      | Some h =>
          if bcrypt_compare pw h then
            run (handle
                   (await_ addRefreshToken k (refresh_token JWT_SECRET (id a) k (Date_now env));
                    ret (Json 200
                           [("success", JBool true);
                            ("message", JStr "Login successful");
                            ("token", JTok (access_token JWT_SECRET (id a) k (Date_now env)));
                            ("refreshToken",
                             JTok (refresh_token JWT_SECRET (id a) k (Date_now env)));
                            ("user", JObj [("id", JOpt JStr (id a));
                                           ("username", JStr k);
                                           ("email", JOpt JStr (email a));
                                           ("createdAt", JOpt JDate (createdAt a))])]))
                   (fun error => failure_with 500 "Login failed" error))
                (after (table w) w)
          else (failure 401 "Invalid credentials", after (table w) w)
      end
  end.
Proof.
  intros Hk Hpw F. unfold login.
  rewrite (truthy_nonempty k Hk), (truthy_nonempty pw Hpw).
  autorewrite with run. rewrite F.
  destruct (table w !! k) as [a|]; simpl; autorewrite with run; [|reflexivity].
  simpl. destruct (password a) as [h|]; autorewrite with run; [|reflexivity].
  destruct (bcrypt_compare pw h); simpl; autorewrite with run; reflexivity.
Qed.

(** X1. A user registered with a password can log in with it: the answer is
    200, its access token verifies with the user's id, and its refresh token
    is recorded for the user. What decides a login is the key material that
    bcrypt reads: a password with the same 72 bytes of key material is
    answered like the registered one, so that whatever follows the 72nd byte
    of a long password is ignored; a password with other key material is
    answered 401, and so is every other password when both are shorter than
    72 bytes and hold no NUL. *)
Theorem register_then_login JWT_SECRET env1 env2 k pw b_email w :
  k <> "" -> pw <> "" -> table w !! k = None -> quiet w ->
  let w1 := (run (register JWT_SECRET env1 (Some k) (Some pw) b_email) w).2 in
  let r := (run (login JWT_SECRET env2 (Some k) (Some pw)) w1).1 in
  let w2 := (run (login JWT_SECRET env2 (Some k) (Some pw)) w1).2 in
  status r = 200 /\
  field "token" (body_of r) = Some (JTok (access_token JWT_SECRET (Some k) k (Date_now env2))) /\
  (forall now, seconds now < seconds (Date_now env2) + JWT_EXPIRES_IN ->
     exists c, verify (access_token JWT_SECRET (Some k) k (Date_now env2)) JWT_SECRET now = Ok c /\
               p_id (payload c) = Some k /\ p_username (payload c) = k) /\
  field "refreshToken" (body_of r) =
    Some (JTok (refresh_token JWT_SECRET (Some k) k (Date_now env2))) /\
  refresh_token JWT_SECRET (Some k) k (Date_now env2) ∈ stored_tokens (table w2) k /\
  (forall pw', pw' <> "" -> bcrypt_key pw' = bcrypt_key pw ->
     run (login JWT_SECRET env2 (Some k) (Some pw')) w1 =
     run (login JWT_SECRET env2 (Some k) (Some pw)) w1) /\
  ((72 <= String.length pw)%nat -> forall x,
     run (login JWT_SECRET env2 (Some k) (Some (pw +:+ x))) w1 =
     run (login JWT_SECRET env2 (Some k) (Some pw)) w1) /\
  (forall pw', pw' <> "" -> bcrypt_key pw' <> bcrypt_key pw ->
     (run (login JWT_SECRET env2 (Some k) (Some pw')) w1).1 =
     failure 401 "Invalid credentials") /\
  (forall pw', pw' <> "" -> pw' <> pw -> plain pw -> plain pw' ->
     (run (login JWT_SECRET env2 (Some k) (Some pw')) w1).1 =
     failure 401 "Invalid credentials").
Proof.
  intros Hk Hpw L Q.
  destruct (register_quiet JWT_SECRET env1 k pw b_email w Hk Hpw L Q)
    as (a & La & Hid & Hp & _ & _ & _ & _ & Q1).
  cbv zeta. set (w1 := (run (register JWT_SECRET env1 (Some k) (Some pw) b_email) w).2) in *.
  assert (forall pw', pw' <> "" -> bcrypt_key pw' = bcrypt_key pw ->
            run (login JWT_SECRET env2 (Some k) (Some pw')) w1 =
            run (login JWT_SECRET env2 (Some k) (Some pw)) w1) as Hsame.
  { intros pw' Hne E.
    rewrite (login_outcome _ _ _ _ _ Hk Hne (quiet_fault _ Q1)),
            (login_outcome _ _ _ _ _ Hk Hpw (quiet_fault _ Q1)), La, Hp.
    rewrite !bcrypt_compare_hash, E. reflexivity. }
  assert (forall pw', pw' <> "" -> bcrypt_key pw' <> bcrypt_key pw ->
            (run (login JWT_SECRET env2 (Some k) (Some pw')) w1).1 =
            failure 401 "Invalid credentials") as Hwrong.
  { intros pw' Hne Hd. rewrite (login_outcome _ _ _ _ _ Hk Hne (quiet_fault _ Q1)), La, Hp.
    rewrite bcrypt_compare_hash, bool_decide_eq_false_2 by exact Hd. reflexivity. }
  assert ((72 <= String.length pw)%nat -> forall x,
            run (login JWT_SECRET env2 (Some k) (Some (pw +:+ x))) w1 =
            run (login JWT_SECRET env2 (Some k) (Some pw)) w1) as Hlong.
  { intros Hlen x. apply Hsame; [|apply bcrypt_key_truncates; exact Hlen].
    destruct pw; [contradiction|discriminate]. }
  revert Hsame Hlong.
  rewrite (login_outcome _ _ _ _ _ Hk Hpw (quiet_fault _ Q1)), La, Hp, Hid.
  rewrite bcrypt_compare_hash, bool_decide_eq_true_2 by reflexivity.
  autorewrite with run. calm. simpl. autorewrite with run. simpl.
  intros Hsame Hlong.
  split; [reflexivity|]. split; [reflexivity|]. split.
  { intros now Hlt. eexists. split; [apply verify_sign; assumption|]. split; reflexivity. }
  split; [reflexivity|]. split.
  { unfold stored_tokens. rewrite lookup_insert_eq. simpl.
    rewrite elem_of_app, list_elem_of_singleton. right. reflexivity. }
  split; [exact Hsame|]. split; [exact Hlong|].
  split; [exact Hwrong|].
  intros pw' Hne Hd Hpl Hpl'. apply Hwrong; [exact Hne|].
  intros E. apply Hd. apply bcrypt_key_plain_inj; assumption.
Qed.

Lemma register_then_login_witness :
  status (run (login SECRET (env_at 1700000009000) (Some "alice") (Some "Secret123!"))
              w_alice).1 = 200 /\
  (run (login SECRET (env_at 1700000009000) (Some "alice") (Some "secret123!"))
       w_alice).1 = failure 401 "Invalid credentials".
Proof.
  pose proof (register_then_login SECRET (env_at 1700000000100) (env_at 1700000009000)
                "alice" "Secret123!" None (mkWorld ∅ [])
                ltac:(discriminate) ltac:(discriminate) (lookup_empty _)
                ltac:(constructor)) as H.
  cbv zeta in H. destruct H as (H1 & _ & _ & _ & _ & _ & _ & H8 & _).
  split; [exact H1|]. apply H8; [discriminate|vm_compute; discriminate].
Defined.

(** ** Answers and the table *)

Ltac answered H := injection H as <- <-; simpl in *; try discriminate.

(** Walks through a run, splitting on every fault and every test. *)
Ltac explore H :=
  repeat (autorewrite with run in H; simpl in H; rewrite ?lookup_insert_eq in H;
          try match type of H with
              | context [match fault ?x with _ => _ end] =>
                  destruct (fault x) as [?e|] eqn:?F
              | context [match ?t !! ?k with _ => _ end] =>
                  destruct (t !! k) as [?a|] eqn:?L
              | context [_ <$> (?t !! ?k)] =>
                  destruct (t !! k) as [?a|] eqn:?L
              | context [if ?b then _ else _] => destruct b eqn:?B
              | context [match ?o with Some _ => _ | None => _ end] =>
                  destruct o eqn:?O
              | context [match ?x with Ok _ => _ | Throw _ => _ end] =>
                  destruct x eqn:?V
              end).

Ltac recorded :=
  unfold stored_tokens; rewrite lookup_insert_eq; unfold update, assign; simpl;
  rewrite ?elem_of_app, ?list_elem_of_singleton, ?elem_of_cons; auto.

Lemma register_records JWT_SECRET env b_username b_password b_email w r w' t :
  run (register JWT_SECRET env b_username b_password b_email) w = (r, w') ->
  field "refreshToken" (body_of r) = Some (JTok t) ->
  exists key c, t = Signed key c /\ t ∈ stored_tokens (table w') (p_username (payload c)).
Proof.
  unfold register. intros H Hf. explore H; answered H.
  all: injection Hf as <-; eexists _, _; (split; [reflexivity|]); recorded.
Qed.

Lemma login_records JWT_SECRET env b_username b_password w r w' t :
  run (login JWT_SECRET env b_username b_password) w = (r, w') ->
  field "refreshToken" (body_of r) = Some (JTok t) ->
  exists key c, t = Signed key c /\ t ∈ stored_tokens (table w') (p_username (payload c)).
Proof.
  unfold login. intros H Hf. explore H; answered H.
  all: injection Hf as <-; eexists _, _; (split; [reflexivity|]); recorded.
Qed.

Lemma verify_email_records JWT_SECRET env q_token w r w' t :
  run (verify_email JWT_SECRET env q_token) w = (r, w') ->
  field "refreshToken" (body_of r) = Some (JTok t) ->
  exists key c, t = Signed key c /\ t ∈ stored_tokens (table w') (p_username (payload c)).
Proof.
  unfold verify_email. intros H Hf. explore H; answered H.
  all: injection Hf as <-; eexists _, _; (split; [reflexivity|]); recorded.
Qed.

Lemma refresh_records JWT_SECRET env body w r w' t :
  run (refresh JWT_SECRET env body) w = (r, w') ->
  field "refreshToken" (body_of r) = Some (JTok t) ->
  exists key c, t = Signed key c /\ t ∈ stored_tokens (table w') (p_username (payload c)).
Proof.
  unfold refresh. intros H Hf. explore H; answered H.
  all: injection Hf as <-; eexists _, _; (split; [reflexivity|]); recorded.
Qed.

(** X3. A refresh token that an answer of register, login, verify-email or
    refresh carries has been recorded for the user it names, whatever sends
    threw on the way. *)
Theorem issued_refresh_token_is_recorded JWT_SECRET env w r w' t :
  (exists u p e, run (register JWT_SECRET env u p e) w = (r, w')) \/
  (exists u p, run (login JWT_SECRET env u p) w = (r, w')) \/
  (exists q, run (verify_email JWT_SECRET env q) w = (r, w')) \/
  (exists b, run (refresh JWT_SECRET env b) w = (r, w')) ->
  field "refreshToken" (body_of r) = Some (JTok t) ->
  exists key c, t = Signed key c /\ t ∈ stored_tokens (table w') (p_username (payload c)).
Proof.
  intros [(u & p & e & H)|[(u & p & H)|[(q & H)|(b & H)]]] Hf.
  - eapply register_records; eassumption.
  - eapply login_records; eassumption.
  - eapply verify_email_records; eassumption.
  - eapply refresh_records; eassumption.
Qed.

Lemma issued_refresh_token_is_recorded_witness :
  exists key c, t_alice = Signed key c /\
                t_alice ∈ stored_tokens (table w_alice) (p_username (payload c)).
Proof.
  apply (issued_refresh_token_is_recorded SECRET (env_at 1700000000100) (mkWorld ∅ [])
           (run (register SECRET (env_at 1700000000100) (Some "alice") (Some "Secret123!")
                          None) (mkWorld ∅ [])).1 w_alice t_alice).
  - left. exists (Some "alice"), (Some "Secret123!"), None. apply surjective_pairing.
  - vm_compute. reflexivity.
Defined.

(** X2. Login answers an unknown username and a wrong password alike, 401
    "Invalid credentials", and writes nothing in either case. *)
Theorem login_failure_uniform JWT_SECRET env k1 k2 pw w a h :
  k1 <> "" -> k2 <> "" -> pw <> "" -> fault w = None ->
  table w !! k1 = None ->
  table w !! k2 = Some a -> password a = Some h -> bcrypt_compare pw h = false ->
  run (login JWT_SECRET env (Some k1) (Some pw)) w =
    (failure 401 "Invalid credentials", after (table w) w) /\
  run (login JWT_SECRET env (Some k2) (Some pw)) w =
    (failure 401 "Invalid credentials", after (table w) w).
Proof.
  intros H1 H2 Hp F L1 L2 Hh Hc. split.
  - rewrite login_outcome by assumption. rewrite L1. reflexivity.
  - rewrite login_outcome by assumption. rewrite L2, Hh, Hc. reflexivity.
Qed.

Lemma login_failure_uniform_witness :
  run (login SECRET (env_at 1700000009000) (Some "carol") (Some "wrong")) w_alice =
  run (login SECRET (env_at 1700000009000) (Some "alice") (Some "wrong")) w_alice.
Proof.
  assert (table w_alice !! "alice" = Some (default no_attrs (table w_alice !! "alice")))
    as L by (vm_compute; reflexivity).
  destruct (login_failure_uniform SECRET (env_at 1700000009000) "carol" "alice" "wrong"
              w_alice (default no_attrs (table w_alice !! "alice"))
              (bcrypt_hash "Secret123!" "salt")
              ltac:(discriminate) ltac:(discriminate) ltac:(discriminate)
              eq_refl eq_refl L eq_refl eq_refl) as [H1 H2].
  rewrite H1, H2. reflexivity.
Defined.

(** ** The list of refresh tokens *)

Lemma filter_ne_app (t : Token) (l : list Token) :
  filter (fun x => x <> t) (l ++ [t])%list = filter (fun x => x <> t) l.
Proof.
  rewrite filter_app, (filter_cons_False _ t []) by (intros H; by apply H).
  rewrite filter_nil. apply app_nil_r.
Qed.

Lemma stored_append (T : gmap string Attrs) k t :
  stored_tokens (<[k := update (default no_attrs (T !! k)) (SET_list_append t)]> T) k =
  (stored_tokens T k ++ [t])%list.
Proof.
  unfold stored_tokens. rewrite lookup_insert_eq. unfold update, assign. simpl.
  destruct (T !! k); reflexivity.
Qed.

(** X4. In a quiet world, a token that has been added is found; removing it
    takes out every occurrence, the ones recorded earlier too, leaves the
    other tokens in their order and touches no other user; removing a token
    that is not recorded writes nothing. *)
Theorem refresh_token_list_round_trip k t w :
  quiet w ->
  let w1 := (run (addRefreshToken k t) w).2 in
  let w2 := (run (removeRefreshToken k t) w1).2 in
  (run (hasRefreshToken k t) w1).1 = Ok true /\
  stored_tokens (table w1) k = (stored_tokens (table w) k ++ [t])%list /\
  (run (hasRefreshToken k t) w2).1 = Ok false /\
  stored_tokens (table w2) k = filter (fun x => x <> t) (stored_tokens (table w) k) /\
  (forall k', k' <> k -> table w2 !! k' = table w !! k') /\
  (forall t', t' ∉ stored_tokens (table w2) k ->
     (run (removeRefreshToken k t') w2).2 = after (table w2) w2).
Proof.
  intros Q. cbv zeta.
  assert (stored_tokens (table (run (addRefreshToken k t) w).2) k =
          (stored_tokens (table w) k ++ [t])%list) as H1.
  { autorewrite with run. calm. simpl. apply stored_append. }
  assert (quiet (run (addRefreshToken k t) w).2) as Q1.
  { autorewrite with run. calm. apply quiet_after. assumption. }
  set (w1 := (run (addRefreshToken k t) w).2) in *.
  assert (bool_decide (t ∈ stored_tokens (table w1) k) = true) as Hin.
  { apply bool_decide_eq_true_2. rewrite H1, elem_of_app, list_elem_of_singleton. auto. }
  assert (table (run (removeRefreshToken k t) w1).2 =
          <[k := assign (default no_attrs (table w1 !! k))
                   (SetRefreshTokens (filter (fun x => x <> t) (stored_tokens (table w) k)))]>
            (table w1)) as H2.
  { autorewrite with run. calm. rewrite Hin. simpl. calm. simpl.
    rewrite H1, filter_ne_app. reflexivity. }
  assert (quiet (run (removeRefreshToken k t) w1).2) as Q2.
  { autorewrite with run. calm. rewrite Hin. simpl. calm.
    repeat apply quiet_after. assumption. }
  set (w2 := (run (removeRefreshToken k t) w1).2) in *.
  assert (stored_tokens (table w2) k =
          filter (fun x => x <> t) (stored_tokens (table w) k)) as H3.
  { unfold stored_tokens at 1. rewrite H2, lookup_insert_eq. reflexivity. }
  split; [autorewrite with run; calm; rewrite Hin; reflexivity|].
  split; [exact H1|]. split.
  { autorewrite with run. calm. rewrite bool_decide_eq_false_2; [reflexivity|].
    rewrite H3, list_elem_of_filter. intros [Hx _]. by apply Hx. }
  split; [exact H3|]. split.
  - intros k' Hk'. rewrite H2, lookup_insert_ne by congruence.
    subst w1. autorewrite with run. calm. simpl. rewrite lookup_insert_ne by congruence.
    reflexivity.
  - intros t' Hno. autorewrite with run. calm.
    rewrite bool_decide_eq_false_2 by assumption. reflexivity.
Qed.

Lemma refresh_token_list_round_trip_witness :
  (run (hasRefreshToken "alice" t_alice)
       (run (addRefreshToken "alice" t_alice) (mkWorld ∅ [])).2).1 = Ok true.
Proof.
  exact (proj1 (refresh_token_list_round_trip "alice" t_alice (mkWorld ∅ [])
                  ltac:(constructor))).
Defined.

(** ** Logging out a principal without a record *)

(** X5. [clearRefreshTokens] is an update without a condition: logging out
    a principal that has no record creates a record that holds nothing but
    an empty token list. Registering that username afterwards is answered
    409, and logging in with it 500. *)
Theorem logout_creates_missing_record JWT_SECRET user k w env pw b_email :
  req_username user = Some k -> k <> "" -> pw <> "" ->
  table w !! k = None -> quiet w ->
  let w1 := (run (logout user) w).2 in
  status (run (logout user) w).1 = 200 /\
  table w1 !! k = Some (mkAttrs None None None None (Some []) None None) /\
  (run (register JWT_SECRET env (Some k) (Some pw) b_email) w1).1 =
    failure 409 "Username already exists" /\
  (run (login JWT_SECRET env (Some k) (Some pw)) w1).1 =
    failure_with 500 "Login failed" (mkError "Error" "Illegal arguments: string, undefined").
Proof.
  intros Hu Hk Hpw L Q. cbv zeta.
  assert (run (logout user) w =
          (Json 200 [("success", JBool true); ("message", JStr "Logged out successfully")],
           after (<[k := mkAttrs None None None None (Some []) None None]> (table w)) w))
    as Hl.
  { unfold logout, with_key. rewrite Hu. autorewrite with run. calm. simpl.
    autorewrite with run. rewrite L. reflexivity. }
  rewrite Hl. cbn [fst snd].
  assert (quiet (after (<[k := mkAttrs None None None None (Some []) None None]> (table w)) w))
    as Q1 by (apply quiet_after; assumption).
  split; [reflexivity|]. split; [apply lookup_insert_eq|]. split.
  - unfold register. rewrite (truthy_nonempty k Hk), (truthy_nonempty pw Hpw).
    autorewrite with run. calm. cbn [table after]. rewrite lookup_insert_eq. simpl.
    autorewrite with run. reflexivity.
  - rewrite login_outcome by (try assumption; apply quiet_fault; assumption).
    cbn [table after]. rewrite lookup_insert_eq. reflexivity.
Qed.

Lemma logout_creates_missing_record_witness :
  (run (register SECRET (env_at 1700000000100) (Some "dave") (Some "Secret123!") None)
       (run (logout u_dave) (mkWorld ∅ [])).2).1 =
  failure 409 "Username already exists".
Proof.
  exact (proj1 (proj2 (proj2
           (logout_creates_missing_record SECRET u_dave "dave" (mkWorld ∅ [])
              (env_at 1700000000100) "Secret123!" None eq_refl
              ltac:(discriminate) ltac:(discriminate) (lookup_empty _)
              ltac:(constructor))))).
Defined.

(** ** What the authenticator does not check *)

(** X6. [authenticateToken] does not look at the kind of a token: a refresh
    token authenticates a request for as long as it has not expired. *)
Theorem refresh_token_authenticates JWT_SECRET cognito uid k now0 now :
  seconds now < seconds now0 + REFRESH_TOKEN_EXPIRES_IN ->
  cognito_rejects cognito (refresh_token JWT_SECRET uid k now0) ->
  authenticateToken JWT_SECRET cognito (bearer (refresh_token JWT_SECRET uid k now0)) now =
  Next (LegacyUser (mkClaims (mkPayload uid k (Some "refresh")) (seconds now0)
                             (seconds now0 + REFRESH_TOKEN_EXPIRES_IN))).
Proof.
  intros Hlt Hc. rewrite (authenticate_legacy _ _ _ (refresh_token JWT_SECRET uid k now0));
    [|reflexivity|assumption].
  unfold legacy_jwt, refresh_token. rewrite verify_sign by assumption. reflexivity.
Qed.

Lemma refresh_token_authenticates_witness :
  authenticateToken SECRET None (bearer t_alice) 1700000003000 =
  Next (LegacyUser (mkClaims (mkPayload (Some "alice") "alice" (Some "refresh"))
                             1700000000 (1700000000 + REFRESH_TOKEN_EXPIRES_IN))).
Proof.
  exact (refresh_token_authenticates SECRET None (Some "alice") "alice" 1700000000100
           1700000003000 eq_refl I).
Defined.

(** ** Refresh *)

(** X7. A refresh request without a token, with a token that does not
    verify, or with an access token is turned away before any request to the
    store: the world is left as it was, oracle included. *)
Theorem refresh_rejects_before_store JWT_SECRET env w :
  run (refresh JWT_SECRET env None) w = (failure 400 "Refresh token is required", w) /\
  run (refresh JWT_SECRET env (Some (Opaque ""))) w =
    (failure 400 "Refresh token is required", w) /\
  (forall t e, t <> Opaque "" -> verify t JWT_SECRET (Date_now env) = Throw e ->
     run (refresh JWT_SECRET env (Some t)) w =
     (failure 403 "Invalid or expired refresh token", w)) /\
  (forall uid k now0, seconds (Date_now env) < seconds now0 + JWT_EXPIRES_IN ->
     run (refresh JWT_SECRET env (Some (access_token JWT_SECRET uid k now0))) w =
     (failure 403 "Invalid token type", w)).
Proof.
  split; [reflexivity|]. split; [reflexivity|]. split.
  - intros t e Hne Hv. unfold refresh. rewrite (present_token t Hne).
    autorewrite with run. rewrite Hv. reflexivity.
  - intros uid k now0 Hlt. unfold refresh.
    rewrite (present_token (access_token JWT_SECRET uid k now0))
      by (unfold access_token, sign; discriminate).
    autorewrite with run. unfold access_token. rewrite verify_sign by assumption.
    simpl. autorewrite with run. reflexivity.
Qed.

Lemma refresh_accepts JWT_SECRET env t c a toks w :
  verify t JWT_SECRET (Date_now env) = Ok c ->
  p_type (payload c) = Some "refresh" ->
  table w !! p_username (payload c) = Some a ->
  refreshTokens a = Some toks ->
  t ∈ toks ->
  quiet w ->
  status (run (refresh JWT_SECRET env (Some t)) w).1 = 200 /\
  quiet (run (refresh JWT_SECRET env (Some t)) w).2.
Proof.
  intros Hv Ht L T M Q.
  assert (t <> Opaque "") as Hne by (intros ->; discriminate).
  assert (bool_decide (t ∈ stored_tokens (table w) (p_username (payload c))) = true) as Hm.
  { apply bool_decide_eq_true_2. unfold stored_tokens. rewrite L. simpl. by rewrite T. }
  unfold refresh. rewrite (present_token t Hne). autorewrite with run. rewrite Hv.
  rewrite bool_decide_eq_true_2 by assumption. simpl. autorewrite with run. calm.
  rewrite L. simpl. autorewrite with run. simpl. calm. rewrite Hm. simpl.
  autorewrite with run. simpl. calm. rewrite Hm. simpl. calm. simpl.
  autorewrite with run. simpl. calm. simpl. autorewrite with run. simpl.
  split; [reflexivity|]. repeat apply quiet_after. assumption.
Qed.

(** X8. The refresh token that a successful refresh returns can be redeemed
    in turn, in a quiet world, until it expires seven days later. *)
Theorem rotated_token_is_redeemable JWT_SECRET env1 env2 b w r1 w1 t' :
  run (refresh JWT_SECRET env1 b) w = (r1, w1) ->
  status r1 = 200 ->
  field "refreshToken" (body_of r1) = Some (JTok t') ->
  quiet w1 ->
  seconds (Date_now env2) < seconds (Date_now env1) + REFRESH_TOKEN_EXPIRES_IN ->
  status (run (refresh JWT_SECRET env2 (Some t')) w1).1 = 200.
Proof.
  intros H Hst Hf Q Hlt.
  destruct (refresh_success _ _ _ _ _ _ H Hst)
    as (t & c & a & toks & -> & Hv & Ht & L & T & M & Hf' & Htab).
  rewrite Hf in Hf'. injection Hf' as ->.
  eapply (refresh_accepts JWT_SECRET env2 _ _ _ _ w1); try assumption.
  - unfold refresh_token. apply verify_sign. assumption.
  - reflexivity.
  - simpl. rewrite Htab. apply lookup_insert_eq.
  - reflexivity.
  - rewrite elem_of_app, list_elem_of_singleton. right. reflexivity.
Qed.

Lemma rotated_token_is_redeemable_witness :
  status (run (refresh SECRET (env_at 1700000009000)
                 (Some (refresh_token SECRET (Some "alice") "alice" 1700000005000)))
              (run (refresh SECRET (env_at 1700000005000) (Some t_alice)) w_alice).2).1 = 200.
Proof.
  apply (rotated_token_is_redeemable SECRET (env_at 1700000005000) (env_at 1700000009000)
           (Some t_alice) w_alice
           (run (refresh SECRET (env_at 1700000005000) (Some t_alice)) w_alice).1).
  - apply surjective_pairing.
  - vm_compute. reflexivity.
  - vm_compute. reflexivity.
  - vm_compute. constructor.
  - vm_compute. reflexivity.
Defined.

Lemma present_Some (b : option Token) (t : Token) : present b = Some t -> b = Some t.
Proof. destruct b as [[?|[|]]|]; simpl; congruence. Qed.

(** X9. Whatever it answers and whatever sends throw, a refresh request
    writes to no record but that of the user its token names, and changes
    nothing of that record but the list of refresh tokens. *)
Theorem refresh_writes_one_user JWT_SECRET env b w r w' :
  run (refresh JWT_SECRET env b) w = (r, w') ->
  (forall k', (forall t c, b = Some t -> verify t JWT_SECRET (Date_now env) = Ok c ->
                           p_username (payload c) <> k') ->
              table w' !! k' = table w !! k') /\
  (forall k a, table w !! k = Some a ->
     exists a', table w' !! k = Some a' /\
       id a' = id a /\ password a' = password a /\ email a' = email a /\
       createdAt a' = createdAt a /\ emailVerified a' = emailVerified a /\
       emailVerificationToken a' = emailVerificationToken a).
Proof.
  unfold refresh. intros H. explore H; injection H as <- <-; cbn [table after];
    try (split; [intros; reflexivity|intros kx ax Lx; exists ax; repeat split; exact Lx]).
  all: repeat match goal with
              | O : present ?b0 = Some _ |- _ => apply present_Some in O; subst b0
              end.
  all: split;
    [ intros k' Hk'; rewrite ?lookup_insert_ne by (eapply Hk'; eauto); reflexivity
    | intros kx ax Lx;
      match goal with
      | |- context [<[?k := _]> _] =>
          destruct (decide (kx = k)) as [->|Hne];
          [ rewrite ?lookup_insert_eq; rewrite ?Lx in *; eexists; split; [reflexivity|];
            unfold update, assign; simpl; repeat split;
            repeat match goal with
                   | L : table _ !! _ = Some _ |- _ => rewrite L in *; clear L
                   end; simpl; try congruence
          | rewrite ?lookup_insert_ne by congruence; exists ax; repeat split; exact Lx ]
      end ].
Qed.

Lemma refresh_writes_one_user_witness :
  table (run (refresh SECRET (env_at 1700000005000)
                (Some (refresh_token SECRET (Some "bob") "bob" 1700000000200))) w_two).2
    !! "alice" = table w_two !! "alice".
Proof.
  apply (proj1 (refresh_writes_one_user SECRET (env_at 1700000005000)
                  (Some (refresh_token SECRET (Some "bob") "bob" 1700000000200)) w_two _ _
                  (surjective_pairing _))).
  intros t c [= <-] Hv. vm_compute in Hv. injection Hv as <-. discriminate.
Defined.

(** ** The scan behind verify-email *)

Lemma ascii_compare_spec (a b : Ascii.ascii) :
  CompareSpec (a = b) (Ascii.N_of_ascii a < Ascii.N_of_ascii b)%N
              (Ascii.N_of_ascii b < Ascii.N_of_ascii a)%N (Ascii.compare a b).
Proof.
  unfold Ascii.compare.
  destruct (N.compare_spec (Ascii.N_of_ascii a) (Ascii.N_of_ascii b)) as [E|L|G];
    constructor; try assumption.
  rewrite <- (Ascii.ascii_N_embedding a), <- (Ascii.ascii_N_embedding b), E. reflexivity.
Qed.

Lemma string_compare_trans (a b c : string) :
  String.compare a b <> Gt -> String.compare b c <> Gt -> String.compare a c <> Gt.
Proof.
  revert b c. induction a as [|x a IH]; intros b c.
  { destruct c; simpl; congruence. }
  destruct b as [|y b], c as [|z c]; simpl; try congruence.
  destruct (ascii_compare_spec x y) as [Exy|Hxy|Hxy];
    destruct (ascii_compare_spec y z) as [Eyz|Hyz|Hyz];
    destruct (ascii_compare_spec x z) as [Exz|Hxz|Hxz];
    subst; try congruence; try lia.
  apply IH.
Qed.

Lemma string_leb_trans (a b c : string) :
  String.leb a b = true -> String.leb b c = true -> String.leb a c = true.
Proof.
  unfold String.leb. intros H1 H2.
  pose proof (string_compare_trans a b c) as H.
  destruct (String.compare a b); destruct (String.compare b c);
    destruct (String.compare a c); simpl in *; try reflexivity; try discriminate;
    exfalso; apply H; first [discriminate|reflexivity].
Qed.

Lemma string_ltb_not_leb (a b : string) :
  String.ltb a b = true -> String.leb b a = false.
Proof.
  unfold String.ltb, String.leb. rewrite (String.compare_antisym b a).
  destruct (String.compare a b); simpl; congruence.
Qed.

#[global] Instance key_le_total : Total key_le.
Proof. intros x y. apply String.leb_total. Qed.

#[global] Instance key_le_trans : Transitive key_le.
Proof. intros x y z. apply string_leb_trans. Qed.

(** The item that a scan meets first has the least username of the table. *)
Lemma scan_order_head (T : gmap string Attrs) (u : Item) :
  head (scan_order T) = Some u ->
  T !! username u = Some (attrs u) /\
  forall k', is_Some (T !! k') -> String.leb (username u) k' = true.
Proof.
  intros Hh. split.
  { apply scan_order_elem. apply head_Some_elem_of. exact Hh. }
  intros k' [a' L']. unfold scan_order in Hh.
  pose proof (StronglySorted_merge_sort key_le (map_to_list T)) as Hs.
  assert ((k', a') ∈ merge_sort key_le (map_to_list T)) as Hin.
  { rewrite merge_sort_Permutation. apply elem_of_map_to_list. exact L'. }
  destruct (merge_sort key_le (map_to_list T)) as [|[k0 a0] l]; [discriminate|].
  simpl in Hh. injection Hh as <-. simpl.
  rewrite elem_of_cons in Hin. destruct Hin as [E|Hin]; [injection E as -> ->|].
  - unfold String.leb.
    destruct (String.compare k0 k0) eqn:E; try reflexivity.
    pose proof (String.compare_antisym k0 k0) as A. rewrite E in A. discriminate A.
  - inversion Hs as [|? ? _ Hall]; subst.
    rewrite Forall_forall in Hall. apply (Hall _ Hin).
Qed.

Lemma scan_first_only (T : gmap string Attrs) tok u :
  head (filter (holds_token tok) (take 1 (scan_order T))) = Some u ->
  head (scan_order T) = Some u.
Proof.
  destruct (scan_order T) as [|v l]; [discriminate|]. simpl.
  rewrite filter_cons. destruct (decide (holds_token tok v)); simpl; [auto|].
  try rewrite filter_nil. discriminate.
Qed.

(** X10. The scan of verify-email evaluates a single item ([Limit: 1]): a
    verification is answered 200 only for a token held by the user with the
    least username of the table; a token that only later users hold is
    answered 404, and the table is left as it was. *)
Theorem verify_email_finds_first_only JWT_SECRET env tok w r w' :
  tok <> "" ->
  run (verify_email JWT_SECRET env (Some tok)) w = (r, w') ->
  (status r = 200 ->
     exists k a, table w !! k = Some a /\ emailVerificationToken a = Some tok /\
       forall k', is_Some (table w !! k') -> String.leb k k' = true) /\
  (forall k0, is_Some (table w !! k0) -> fault w = None ->
     (forall k a, table w !! k = Some a -> emailVerificationToken a = Some tok ->
                  String.ltb k0 k = true) ->
     r = failure 404 "Invalid or expired verification token" /\ table w' = table w).
Proof.
  intros Hne H. unfold verify_email in H. rewrite (truthy_nonempty tok Hne) in H.
  autorewrite with run in H. split.
  - intros Hst. destruct (fault w) as [e|]; [injection H as <- <-; discriminate|].
    destruct (head _) as [u|] eqn:Hu; simpl in H.
    2:{ autorewrite with run in H. injection H as <- <-. discriminate. }
    pose proof (scan_hit _ _ _ _ Hu) as [L Ht].
    apply scan_first_only, scan_order_head in Hu as [_ Hmin].
    exists (username u), (attrs u). auto.
  - intros k0 Hk0 F Hlater. rewrite F in H.
    destruct (head _) as [u|] eqn:Hu; simpl in H.
    + exfalso. pose proof (scan_hit _ _ _ _ Hu) as [L Ht].
      apply scan_first_only, scan_order_head in Hu as [_ Hmin].
      specialize (Hmin k0 Hk0). specialize (Hlater _ _ L Ht).
      apply string_ltb_not_leb in Hlater. congruence.
    + autorewrite with run in H. injection H as <- <-. split; reflexivity.
Qed.

Lemma verify_email_finds_first_only_witness :
  (run (verify_email SECRET (env_at 1700000060000) (Some "3f2b8c1e-uuid")) w_two).1 =
  failure 404 "Invalid or expired verification token".
Proof.
  assert (exists a b, table w_two = <["bob" := b]> (<["alice" := a]> ∅) /\
                      emailVerificationToken a = Some "0a1b7c2d-uuid") as (a & b & Ht & Ha).
  { eexists _, _. split; vm_compute; reflexivity. }
  apply (proj2 (verify_email_finds_first_only SECRET (env_at 1700000060000) "3f2b8c1e-uuid"
                  w_two _ _ ltac:(discriminate) (surjective_pairing _)) "alice").
  - rewrite Ht, lookup_insert_ne, lookup_insert_eq by discriminate. eauto.
  - reflexivity.
  - intros k x L Hx. rewrite Ht in L.
    destruct (decide (k = "bob")) as [->|Hb]; [reflexivity|].
    rewrite lookup_insert_ne in L by congruence.
    destruct (decide (k = "alice")) as [->|Hal].
    + rewrite lookup_insert_eq in L. injection L as <-. rewrite Ha in Hx. discriminate.
    + rewrite lookup_insert_ne, lookup_empty in L by congruence. discriminate.
Defined.

(** ** Share links: creation and resolution *)

Lemma truthy_Some (s s' : string) : truthy (Some s) = Some s' -> s' = s /\ s <> "".
Proof.
  unfold truthy. destruct (String.eqb_spec s ""); [discriminate|].
  intros [= <-]. auto.
Qed.

(** X11. A share request that is answered 200 binds its token to a file of
    the processed directory whose name starts with the image id and contains
    the filter name, for the given number of hours (24 when none is given).
    Until that instant included, every request for the token is served that
    file, if it still exists, and leaves the map as it is. *)
Theorem share_then_shared env user i f h (m : gmap string SharedImage) r m' :
  share env user (Some i) (Some f) h m = (r, m') ->
  status r = 200 ->
  exists si files,
    m' = <[uuidv4 env := si]> m /\
    readdir env = Ok files /\ filename si ∈ files /\
    startsWith (filename si) i = true /\ includes (filename si) f = true /\
    userId si = req_username user /\
    expiresAt si = Date_now env + default 24 h * 3600000 /\
    forall env', Date_now env' <= expiresAt si ->
      shared env' (uuidv4 env) m' =
      (if pathExists env' (processedPath (filename si))
       then SendFile "image/png" (processedPath (filename si))
       else failure 404 "Image file not found", m').
Proof.
  unfold share. intros H Hst.
  destruct (truthy (Some i)) as [i'|] eqn:Hi; cbn beta iota in H;
    [|injection H as <- <-; discriminate].
  destruct (truthy (Some f)) as [f'|] eqn:Hf; cbn beta iota in H;
    [|injection H as <- <-; discriminate].
  apply truthy_Some in Hi as [-> _]. apply truthy_Some in Hf as [-> _].
  destruct (readdir env) as [files|e] eqn:Hd; cbn beta iota in H;
    [|injection H as <- <-; discriminate].
  destruct (List.find _ files) as [file|] eqn:Hfind; cbn beta iota in H;
    [|injection H as <- <-; discriminate].
  destruct (toISOString _) as [iso|e] eqn:Hiso; cbn beta iota in H;
    [|injection H as <- <-; discriminate].
  injection H as <- <-.
  assert (iso = Date_now env + default 24 h * 3600000) as ->.
  { unfold toISOString in Hiso. destruct (Z.abs _ <=? _); [|discriminate].
    injection Hiso as <-. lia. }
  apply List.find_some in Hfind as [Hin Hp]. apply andb_true_iff in Hp as [Hp1 Hp2].
  eexists _, files. split; [reflexivity|]. split; [reflexivity|].
  split; [apply list_elem_of_In; exact Hin|]. split; [exact Hp1|]. split; [exact Hp2|].
  split; [reflexivity|]. split; [reflexivity|].
  intros env' Hle. unfold shared. rewrite lookup_insert_eq.
  cbn [expiresAt filename] in *.
  destruct (Z.ltb_spec (Date_now env + default 24 h * 3600000) (Date_now env')); [lia|].
  destruct (pathExists env' _); reflexivity.
Qed.

Lemma share_then_shared_witness :
  exists si,
    expiresAt si = 1700086410000 /\
    shared (env_at 1700086410000) "3f2b8c1e-uuid"
           (share (env_at 1700000010000) u_alice (Some "img1") (Some "sepia") None ∅).2 =
    (SendFile "image/png" (processedPath (filename si)),
     (share (env_at 1700000010000) u_alice (Some "img1") (Some "sepia") None ∅).2).
Proof.
  destruct (share_then_shared (env_at 1700000010000) u_alice "img1" "sepia" None ∅ _ _
              (surjective_pairing _) eq_refl)
    as (si & files & _ & _ & _ & _ & _ & _ & Hexp & Hserve).
  exists si. split; [exact Hexp|].
  apply (Hserve (env_at 1700086410000)). rewrite Hexp. discriminate.
Defined.

(** X12. A share request that is not answered 200 (400, 404 or 500) leaves
    the map of share tokens as it was. *)
Theorem share_failure_leaves_map env user i f h (m : gmap string SharedImage) r m' :
  share env user i f h m = (r, m') ->
  status r <> 200 ->
  m' = m /\ (status r = 400 \/ status r = 404 \/ status r = 500).
Proof.
  unfold share. intros H Hst.
  destruct (truthy i); cbn beta iota in H; [|injection H as <- <-; auto].
  destruct (truthy f); cbn beta iota in H; [|injection H as <- <-; auto].
  destruct (readdir env); cbn beta iota in H; [|injection H as <- <-; auto].
  destruct (List.find _ _); cbn beta iota in H; [|injection H as <- <-; auto].
  destruct (toISOString _); cbn beta iota in H; [|injection H as <- <-; auto].
  injection H as <- <-. contradiction Hst. reflexivity.
Qed.

Lemma share_failure_leaves_map_witness :
  (share (env_at 1700000020000) u_alice (Some "img1") None None shares_zero).2 = shares_zero.
Proof.
  apply (share_failure_leaves_map (env_at 1700000020000) u_alice (Some "img1") None None
           shares_zero _ _ (surjective_pairing _)).
  discriminate.
Defined.

(** X13. A request for a share token serves a file only when the token is
    in the map and has not expired, and then the file bound to that token;
    it never adds an entry, never touches another token, and removes the
    requested one only when it has expired. *)
Theorem shared_serves_only_bound_file env token (m : gmap string SharedImage) :
  (forall ctype p, (shared env token m).1 = SendFile ctype p ->
     exists si, m !! token = Some si /\ Date_now env <= expiresAt si /\
                p = processedPath (filename si) /\ pathExists env p = true /\
                (shared env token m).2 = m) /\
  (forall token', token' <> token -> (shared env token m).2 !! token' = m !! token') /\
  ((shared env token m).2 = m \/
   exists si, m !! token = Some si /\ expiresAt si < Date_now env /\
              (shared env token m).2 = delete token m).
Proof.
  unfold shared. destruct (m !! token) as [si|] eqn:L.
  2:{ split; [intros ? ? [=]|]. split; [reflexivity|]. left. reflexivity. }
  destruct (Z.ltb_spec (expiresAt si) (Date_now env)) as [Hlt|Hge].
  { split; [intros ? ? [=]|]. split.
    - intros token' Hne. simpl. apply lookup_delete_ne. congruence.
    - right. exists si. auto. }
  destruct (pathExists env (processedPath (filename si))) eqn:Hp; simpl.
  - split.
    + intros ctype p [= <- <-]. exists si. repeat split; auto.
    + split; [reflexivity|]. left. reflexivity.
  - split; [intros ? ? [=]|]. split; [reflexivity|]. left. reflexivity.
Qed.

(** ** Registration and the records already there *)

(** X14. Whatever the request and whatever the store answers, registration
    leaves every record that exists as it is; for a username that is taken
    it writes nothing at all, never answers 201, and answers 409 when the
    lookup goes through. *)
Theorem register_never_overwrites JWT_SECRET env u p e w :
  let r := (run (register JWT_SECRET env u p e) w).1 in
  let w' := (run (register JWT_SECRET env u p e) w).2 in
  (forall k a, table w !! k = Some a -> table w' !! k = Some a) /\
  (forall k, truthy u = Some k -> is_Some (table w !! k) ->
     table w' = table w /\ status r <> 201 /\
     (fault w = None -> truthy p <> None -> r = failure 409 "Username already exists")).
Proof.
  cbv zeta. destruct (run (register JWT_SECRET env u p e) w) as [r w'] eqn:H.
  cbn [fst snd]. unfold register in H. split.
  - intros k a Lk. explore H; answered H; try exact Lk.
    all: destruct (decide (k = s)) as [->|Hne]; [congruence|].
    all: rewrite ?lookup_insert_ne by congruence; exact Lk.
  - intros k Hu [a Lk]. rewrite Hu in H.
    explore H; answered H; try congruence.
    all: repeat split; try discriminate; try congruence;
      intros; congruence.
Qed.

(** X15. When the record is created but the store then fails on recording
    the refresh token, registration is answered 500 although the account
    now exists: the same registration sent again is answered 409, and the
    user can log in with the password. *)
Theorem register_failure_leaves_account JWT_SECRET env env2 k pw b_email e n t :
  k <> "" -> pw <> "" -> t !! k = None ->
  truthy b_email = None \/ sendMail_ok env = true ->
  message e <> "Username already exists" ->
  let w := mkWorld t (None :: None :: Some e :: n) in
  let r := (run (register JWT_SECRET env (Some k) (Some pw) b_email) w).1 in
  let w1 := (run (register JWT_SECRET env (Some k) (Some pw) b_email) w).2 in
  r = failure_with 500 "Registration failed" e /\
  (exists a, table w1 !! k = Some a /\
             password a = Some (bcrypt_hash pw (genSalt env)) /\
             refreshTokens a = Some []) /\
  forall w2, table w2 = table w1 -> quiet w2 ->
    (run (register JWT_SECRET env2 (Some k) (Some pw) b_email) w2).1 =
      failure 409 "Username already exists" /\
    status (run (login JWT_SECRET env2 (Some k) (Some pw)) w2).1 = 200.
Proof.
  intros Hk Hpw L Hmail Hmsg. cbv zeta.
  assert (negb (bool_decide (is_Some (truthy b_email))) ||
          match truthy b_email with
          | Some m => sendVerificationEmail env m k (uuidv4 env)
          | None => false
          end = true) as Hissue.
  { destruct Hmail as [->|Hs]; [reflexivity|].
    destruct (truthy b_email); [|reflexivity]. unfold sendVerificationEmail. rewrite Hs.
    apply orb_true_r. }
  assert (run (register JWT_SECRET env (Some k) (Some pw) b_email)
              (mkWorld t (None :: None :: Some e :: n)) =
          (failure_with 500 "Registration failed" e,
           mkWorld (<[k := mkAttrs (Some k) (Some (bcrypt_hash pw (genSalt env)))
                             (Some (default "" (truthy b_email))) (Some (Date_now env))
                             (Some []) (Some false) (truthy (Some (uuidv4 env)))]> t) n)) as ->.
  { unfold register. rewrite (truthy_nonempty k Hk), (truthy_nonempty pw Hpw).
    autorewrite with run. unfold fault at 1. cbn [net table]. rewrite L.
    simpl. autorewrite with run. simpl. rewrite L. rewrite Hissue.
    autorewrite with run. unfold fault, after. cbn [net table tail].
    autorewrite with run.
    destruct (String.eqb_spec (message e) "Username already exists"); [contradiction|].
    rewrite (truthy_nonempty k Hk), truthy_default. reflexivity. }
  cbn [fst snd table]. split; [reflexivity|]. split.
  { eexists. rewrite lookup_insert_eq. split; [reflexivity|]. split; reflexivity. }
  intros w2 Ht Q. split.
  - unfold register. rewrite (truthy_nonempty k Hk), (truthy_nonempty pw Hpw).
    autorewrite with run. rewrite (quiet_fault _ Q), Ht, lookup_insert_eq. simpl.
    autorewrite with run. reflexivity.
  - rewrite (login_outcome _ _ _ _ _ Hk Hpw (quiet_fault _ Q)), Ht, lookup_insert_eq.
    cbn [password]. rewrite bcrypt_compare_hash, bool_decide_eq_true_2 by reflexivity.
    autorewrite with run. calm. simpl. autorewrite with run. reflexivity.
Qed.

Lemma register_failure_leaves_account_witness :
  (run (register SECRET (env_at 1700000000100) (Some "carol") (Some "Secret123!") None)
       (mkWorld ∅ [None; None; Some throttled])).1 =
  failure_with 500 "Registration failed" throttled.
Proof.
  exact (proj1 (register_failure_leaves_account SECRET (env_at 1700000000100)
                  (env_at 1700000009000) "carol" "Secret123!" None throttled [] ∅
                  ltac:(discriminate) ltac:(discriminate) (lookup_empty _)
                  (or_introl eq_refl) ltac:(discriminate))).
Defined.

(** ** Verification links *)

Lemma scan_order_least (T : gmap string Attrs) k a :
  T !! k = Some a ->
  (forall k', is_Some (T !! k') -> String.leb k k' = true) ->
  head (scan_order T) = Some (mkItem k a).
Proof.
  intros L Hmin.
  assert (mkItem k a ∈ scan_order T) as Hin by (apply scan_order_elem; exact L).
  destruct (head (scan_order T)) as [u|] eqn:Hu.
  2:{ destruct (scan_order T); [|discriminate]. apply elem_of_nil in Hin. contradiction. }
  apply scan_order_head in Hu as [Lu Hu].
  assert (username u = k) as Hk.
  { apply String.leb_antisym; [apply Hu; eauto|apply Hmin; eauto]. }
  destruct u as [ku au]. simpl in *. subst ku. congruence.
Qed.

(** X16. When the store fails on recording the refresh token, a
    verification is answered 500 although the address is now verified and
    the token consumed: no tokens were issued, and the same link visited
    again is answered 404. *)
Theorem verify_email_failure_consumes_token JWT_SECRET env env2 tok e n t k a :
  tok <> "" -> t !! k = Some a -> emailVerificationToken a = Some tok ->
  (forall k', is_Some (t !! k') -> String.leb k k' = true) ->
  let w := mkWorld t (None :: None :: Some e :: n) in
  let r := (run (verify_email JWT_SECRET env (Some tok)) w).1 in
  let w1 := (run (verify_email JWT_SECRET env (Some tok)) w).2 in
  r = failure_with 500 "Email verification failed" e /\
  (exists a', table w1 !! k = Some a' /\ emailVerified a' = Some true /\
              emailVerificationToken a' = None /\ refreshTokens a' = refreshTokens a) /\
  forall w2, table w2 = table w1 -> fault w2 = None ->
    (run (verify_email JWT_SECRET env2 (Some tok)) w2).1 =
    failure 404 "Invalid or expired verification token".
Proof.
  intros Hne L Ht Hmin. cbv zeta.
  pose proof (scan_order_least t k a L Hmin) as Hh.
  set (a' := update a (SET [SetEmailVerified true; SetEmailVerificationToken None])).
  assert (run (verify_email JWT_SECRET env (Some tok))
              (mkWorld t (None :: None :: Some e :: n)) =
          (failure_with 500 "Email verification failed" e, mkWorld (<[k := a']> t) n)) as ->.
  { unfold verify_email. rewrite (truthy_nonempty tok Hne). autorewrite with run.
    unfold fault at 1. cbn [net table].
    destruct (scan_order t) as [|u l] eqn:Hs; [discriminate|]. injection Hh as ->.
    cbn [take]. rewrite filter_cons, decide_True by exact Ht.
    simpl. autorewrite with run. simpl. rewrite L. simpl.
    autorewrite with run. unfold fault, after. cbn [net table tail].
    autorewrite with run. reflexivity. }
  cbn [fst snd table]. split; [reflexivity|]. split.
  { exists a'. rewrite lookup_insert_eq. repeat split; reflexivity. }
  intros w2 HT F. unfold verify_email. rewrite (truthy_nonempty tok Hne).
  autorewrite with run. rewrite F, HT.
  assert (head (scan_order (<[k := a']> t)) = Some (mkItem k a')) as Hh'.
  { apply scan_order_least; [apply lookup_insert_eq|].
    intros k' Hk'. apply Hmin. destruct (decide (k' = k)) as [->|Hd]; [eauto|].
    rewrite lookup_insert_ne in Hk' by congruence. exact Hk'. }
  destruct (scan_order (<[k := a']> t)) as [|u l]; [discriminate|]. injection Hh' as ->.
  cbn [take]. rewrite filter_cons, decide_False by (unfold holds_token; simpl; discriminate).
  simpl. autorewrite with run. reflexivity.
Qed.

Lemma verify_email_failure_consumes_token_witness :
  (run (verify_email SECRET (env_at 1700000060000) (Some "3f2b8c1e-uuid"))
       (mkWorld (table w_bob) [None; None; Some throttled])).1 =
  failure_with 500 "Email verification failed" throttled.
Proof.
  assert (exists b, table w_bob = <["bob" := b]> ∅ /\
                    emailVerificationToken b = Some "3f2b8c1e-uuid") as (b & Ht & Hb).
  { eexists. split; vm_compute; reflexivity. }
  apply (proj1 (verify_email_failure_consumes_token SECRET (env_at 1700000060000)
                  (env_at 1700000090000) "3f2b8c1e-uuid" throttled [] (table w_bob) "bob" b
                  ltac:(discriminate)
                  ltac:(rewrite Ht; apply lookup_insert_eq) Hb
                  ltac:(intros k' [x L]; rewrite Ht in L;
                        destruct (decide (k' = "bob")) as [->|Hd]; [reflexivity|];
                        rewrite lookup_insert_ne, lookup_empty in L by congruence;
                        discriminate))).
Defined.

(** ** The default user *)

(** X17. Where there is no user [anter] and the store answers, start-up
    creates one, verified and without tokens, who can log in with the
    built-in password; no other record is touched, and running the
    initialisation again, whatever the store answers then, changes nothing. *)
Theorem default_user_is_created_once JWT_SECRET env env2 w :
  table w !! "anter" = None -> quiet w ->
  let w1 := (run (initializeDefaultUser env) w).2 in
  (exists a, table w1 !! "anter" = Some a /\ emailVerified a = Some true /\
             refreshTokens a = Some [] /\ emailVerificationToken a = None) /\
  (forall k, k <> "anter" -> table w1 !! k = table w !! k) /\
  status (run (login JWT_SECRET env2 (Some "anter") (Some "kingkong")) w1).1 = 200 /\
  (forall env3 w3, table w3 = table w1 ->
     table (run (initializeDefaultUser env3) w3).2 = table w1).
Proof.
  intros L Q. cbv zeta.
  assert (run (initializeDefaultUser env) w =
          (tt, after (<["anter" := mkAttrs (Some "anter")
                                     (Some (bcrypt_hash "kingkong" (genSalt env)))
                                     (Some "anter@example.com") (Some (Date_now env))
                                     (Some []) (Some true) None]> (table w))
                     (after (table w) w))) as ->.
  { unfold initializeDefaultUser. autorewrite with run. calm. rewrite L. simpl.
    autorewrite with run. simpl. calm. rewrite L. autorewrite with run. reflexivity. }
  cbn [fst snd table after]. split.
  { eexists. rewrite lookup_insert_eq. repeat split; reflexivity. }
  split.
  { intros k Hk. rewrite lookup_insert_ne by congruence. reflexivity. }
  split.
  - rewrite login_outcome; [|discriminate|discriminate|].
    2:{ apply quiet_fault. repeat apply quiet_after. exact Q. }
    cbn [table after]. rewrite lookup_insert_eq. cbn [password id].
    rewrite bcrypt_compare_hash, bool_decide_eq_true_2 by reflexivity.
    autorewrite with run. simpl.
    rewrite (quiet_fault _) by (repeat apply quiet_after; exact Q).
    autorewrite with run. reflexivity.
  - intros env3 w3 Ht. unfold initializeDefaultUser. autorewrite with run.
    destruct (fault w3); [rewrite Ht; reflexivity|].
    rewrite Ht, lookup_insert_eq. simpl. autorewrite with run. reflexivity.
Qed.

Lemma default_user_is_created_once_witness :
  status (run (login SECRET (env_at 1700000009000) (Some "anter") (Some "kingkong"))
              (run (initializeDefaultUser (env_at 1700000000100)) w_alice).2).1 = 200.
Proof.
  exact (proj1 (proj2 (proj2
           (default_user_is_created_once SECRET (env_at 1700000000100)
              (env_at 1700000009000) w_alice eq_refl ltac:(vm_compute; constructor))))).
Defined.

(** ** A new verification message *)

(** X18. For a user who is not verified and has an address, a request for a
    new message replaces the verification token whether or not the message
    can be sent, and touches nothing else; a link with the previous token
    is then answered 404. *)
Theorem resend_replaces_token env k w a mail :
  k <> "" -> quiet w -> table w !! k = Some a ->
  default false (emailVerified a) = false -> truthy (email a) = Some mail ->
  let r := (run (resend_verification env (Some k)) w).1 in
  let w1 := (run (resend_verification env (Some k)) w).2 in
  r = Json 200 [("success", JBool (sendMail_ok env));
                ("message", JStr (if sendMail_ok env
                                  then "Verification email sent successfully"
                                  else "Failed to send verification email"))] /\
  table w1 = <[k := assign a (SetEmailVerificationToken (Some (uuidv4 env)))]> (table w) /\
  forall JWT_SECRET env2 w2 old,
    emailVerificationToken a = Some old -> old <> "" -> old <> uuidv4 env ->
    (forall k' a', k' <> k -> table w !! k' = Some a' ->
                   emailVerificationToken a' <> Some old) ->
    table w2 = table w1 -> fault w2 = None ->
    (run (verify_email JWT_SECRET env2 (Some old)) w2).1 =
    failure 404 "Invalid or expired verification token".
Proof.
  intros Hk Q L Hv Hm. cbv zeta.
  assert (run (resend_verification env (Some k)) w =
          (Json 200 [("success", JBool (sendMail_ok env));
                     ("message", JStr (if sendMail_ok env
                                       then "Verification email sent successfully"
                                       else "Failed to send verification email"))],
           after (<[k := assign a (SetEmailVerificationToken (Some (uuidv4 env)))]> (table w))
                 (after (table w) w))) as ->.
  { unfold resend_verification. rewrite (truthy_nonempty k Hk). autorewrite with run.
    calm. rewrite L. simpl. rewrite Hv, Hm. autorewrite with run. calm.
    cbn [table after]. rewrite L. autorewrite with run. reflexivity. }
  cbn [fst snd table after]. split; [reflexivity|]. split; [reflexivity|].
  intros JWT_SECRET env2 w2 old Hold Hne Hnew Hothers Ht F.
  unfold verify_email. rewrite (truthy_nonempty old Hne). autorewrite with run.
  rewrite F, Ht, scan_miss; [simpl; autorewrite with run; reflexivity|].
  intros k' a' L'. destruct (decide (k' = k)) as [->|Hd].
  - rewrite lookup_insert_eq in L'. injection L' as <-. unfold assign. simpl. congruence.
  - rewrite lookup_insert_ne in L' by congruence. eauto.
Qed.

Lemma resend_replaces_token_witness :
  (run (resend_verification (env_at 1700000030000) (Some "bob")) w_bob).1 =
  Json 200 [("success", JBool false);
            ("message", JStr "Failed to send verification email")].
Proof.
  exact (proj1 (resend_replaces_token (env_at 1700000030000) "bob" w_bob
                  (default no_attrs (table w_bob !! "bob")) "bob@example.com"
                  ltac:(discriminate) ltac:(vm_compute; constructor)
                  eq_refl eq_refl eq_refl)).
Defined.

(** ** The profile route *)

(** X19. The access token of a registration, presented to the profile route
    before it expires, is answered with the id, the name, the address and
    the creation instant that were registered, and with nothing else of the
    record. *)
Theorem registered_user_reads_profile JWT_SECRET cognito env env2 k pw b_email w :
  k <> "" -> pw <> "" -> table w !! k = None -> quiet w ->
  cognito_rejects cognito (access_token JWT_SECRET (Some k) k (Date_now env)) ->
  seconds (Date_now env2) < seconds (Date_now env) + JWT_EXPIRES_IN ->
  let w1 := (run (register JWT_SECRET env (Some k) (Some pw) b_email) w).2 in
  (run (profile_route JWT_SECRET cognito
          (bearer (access_token JWT_SECRET (Some k) k (Date_now env))) env2) w1).1 =
  Json 200 [("success", JBool true);
            ("user", JObj [("id", JStr k); ("username", JStr k);
                           ("email", JStr (default "" (truthy b_email)));
                           ("createdAt", JDate (Date_now env))])].
Proof.
  intros Hk Hpw L Q Hc Hlt. cbv zeta.
  destruct (register_quiet JWT_SECRET env k pw b_email w Hk Hpw L Q)
    as (a & La & Hid & _ & Hmail & Hat & _ & _ & Q1).
  unfold profile_route, protected.
  rewrite (authenticate_legacy JWT_SECRET cognito _ (access_token JWT_SECRET (Some k) k (Date_now env)));
    [|reflexivity|exact Hc].
  unfold legacy_jwt, access_token. rewrite verify_sign by exact Hlt.
  unfold profile. simpl. autorewrite with run. rewrite (quiet_fault _ Q1), La. simpl.
  autorewrite with run. rewrite Hid, Hmail, Hat. reflexivity.
Qed.

Lemma registered_user_reads_profile_witness :
  (run (profile_route SECRET None (bearer a_alice) (env_at 1700000003000)) w_alice).1 =
  Json 200 [("success", JBool true);
            ("user", JObj [("id", JStr "alice"); ("username", JStr "alice");
                           ("email", JStr ""); ("createdAt", JDate 1700000000100)])].
Proof.
  exact (registered_user_reads_profile SECRET None (env_at 1700000000100)
           (env_at 1700000003000) "alice" "Secret123!" None (mkWorld ∅ [])
           ltac:(discriminate) ltac:(discriminate) (lookup_empty _) ltac:(constructor)
           I eq_refl).
Defined.

(** ** The two authenticators *)

(** X20. [authenticateCognitoToken] has no fallback: a token that the
    verifier rejects is answered 403 where [authenticateToken] goes on to
    the local check; a token that the verifier accepts gives both the same
    principal; without a verifier every request is answered 501; and the
    principal it passes on is never a local one. *)
Theorem cognito_authenticator_has_no_fallback JWT_SECRET verifyToken hdr tok now :
  present (hdr ≫= (fun h => h !! 1%nat)) = Some tok ->
  (forall e, verifyToken tok = Throw e ->
     authenticateCognitoToken (Some verifyToken) hdr =
       Reply (failure_with 403 "Invalid or expired token" e) /\
     authenticateToken JWT_SECRET (Some verifyToken) hdr now = legacy_jwt JWT_SECRET tok now) /\
  (forall p, verifyToken tok = Ok p ->
     exists u, authenticateCognitoToken (Some verifyToken) hdr = Next u /\
               authenticateToken JWT_SECRET (Some verifyToken) hdr now = Next u) /\
  (forall hdr', authenticateCognitoToken None hdr' =
                Reply (failure 501 "Cognito authentication not configured")) /\
  (forall cognito hdr' c, authenticateCognitoToken cognito hdr' <> Next (LegacyUser c)).
Proof.
  intros Hp. split; [|split; [|split]].
  - intros e He. split.
    + unfold authenticateCognitoToken. rewrite Hp, He. reflexivity.
    + apply authenticate_legacy; [exact Hp|]. exists e. exact He.
  - intros p Hv. eexists. split.
    + unfold authenticateCognitoToken. rewrite Hp, Hv. reflexivity.
    + unfold authenticateToken. rewrite Hp, Hv. reflexivity.
  - reflexivity.
  - intros cognito hdr' c. unfold authenticateCognitoToken.
    clear Hp. destruct cognito as [v|]; [|discriminate].
    destruct (present _) as [t|]; [|discriminate].
    destruct (v t); intros H; inversion H.
Qed.

Lemma cognito_authenticator_has_no_fallback_witness :
  authenticateCognitoToken (Some not_applicable) (bearer a_alice) =
    Reply (failure_with 403 "Invalid or expired token"
             (mkError "JwtParseError" "Token is not a Cognito token")) /\
  authenticateToken SECRET (Some not_applicable) (bearer a_alice) 1700000003000 =
    legacy_jwt SECRET a_alice 1700000003000.
Proof.
  exact (proj1 (cognito_authenticator_has_no_fallback SECRET not_applicable (bearer a_alice)
                  a_alice 1700000003000 eq_refl) _ eq_refl).
Defined.

(** ** The client against the server *)

Lemma run_resolved {A} (p : Prog A) (w : World) :
  run (resolved p) w = (Ok (run p w).1, (run p w).2).
Proof.
  revert w. induction p as [a|R c k IH]; intros w; [reflexivity|].
  change (run (resolved (Send c k)) w)
    with (let '(r, w') := perform c w in run (resolved (k r)) w').
  change (run (Send c k) w) with (let '(r, w') := perform c w in run (k r) w').
  destruct (perform c w) as [r w1]. apply IH.
Qed.

(** Every refusal of [authenticateToken] is one that the client answers by
    refreshing. *)
Lemma authenticate_reply_retry JWT_SECRET cognito hdr now r :
  authenticateToken JWT_SECRET cognito hdr now = Reply r ->
  status r = 401 \/
  (status r = 403 /\ field "message" (body_of r) = Some (JStr "Invalid or expired token")).
Proof.
  unfold authenticateToken.
  destruct (present (h ← hdr; h !! 1%nat)) as [tok|]; [|intros [= <-]; left; reflexivity].
  assert (legacy_jwt JWT_SECRET tok now = Reply r ->
          status r = 401 \/
          (status r = 403 /\
           field "message" (body_of r) = Some (JStr "Invalid or expired token"))) as Hl.
  { unfold legacy_jwt. destruct (verify tok JWT_SECRET now) as [c|e]; [discriminate|].
    intros [= <-]. simpl. destruct (String.eqb (name e) "TokenExpiredError"); auto. }
  destruct cognito as [v|]; [|exact Hl].
  destruct (v tok); [discriminate|exact Hl].
Qed.

Lemma refresh_quiet JWT_SECRET env t c a toks w :
  verify t JWT_SECRET (Date_now env) = Ok c ->
  p_type (payload c) = Some "refresh" ->
  table w !! p_username (payload c) = Some a ->
  refreshTokens a = Some toks ->
  t ∈ toks ->
  quiet w ->
  let k := p_username (payload c) in
  exists w2,
    run (refresh JWT_SECRET env (Some t)) w =
    (Json 200
       [("success", JBool true);
        ("message", JStr "Token refreshed successfully");
        ("token", JTok (access_token JWT_SECRET (id a) k (Date_now env)));
        ("refreshToken", JTok (refresh_token JWT_SECRET (id a) k (Date_now env)));
        ("user", JObj [("id", JOpt JStr (id a)); ("username", JStr k);
                       ("email", JOpt JStr (email a));
                       ("createdAt", JOpt JDate (createdAt a))])], w2) /\
    quiet w2 /\
    table w2 =
      <[k := assign a (SetRefreshTokens
                         (filter (fun x => x <> t) toks ++
                          [refresh_token JWT_SECRET (id a) k (Date_now env)]))]> (table w).
Proof.
  intros Hv Ht L T M Q. cbv zeta.
  assert (t <> Opaque "") as Hne by (intros ->; discriminate).
  assert (bool_decide (t ∈ stored_tokens (table w) (p_username (payload c))) = true) as Hm.
  { apply bool_decide_eq_true_2. unfold stored_tokens. rewrite L. simpl. by rewrite T. }
  destruct (run (refresh JWT_SECRET env (Some t)) w) as [r w2] eqn:H.
  pose proof (refresh_accepts JWT_SECRET env t c a toks w Hv Ht L T M Q) as [Hs Q2].
  rewrite H in Hs, Q2. cbn [fst snd] in Hs, Q2.
  destruct (refresh_success JWT_SECRET env (Some t) w r w2 H Hs)
    as (t0 & c' & a' & toks' & [= <-] & Hv' & _ & L' & T' & _ & _ & Htab).
  rewrite Hv in Hv'. injection Hv' as <-. rewrite L in L'. injection L' as <-.
  rewrite T in T'. injection T' as <-.
  exists w2. split; [|split; [exact Q2|exact Htab]]. f_equal.
  revert H. unfold refresh. rewrite (present_token t Hne). autorewrite with run. rewrite Hv.
  rewrite bool_decide_eq_true_2 by assumption. simpl. autorewrite with run. calm.
  rewrite L. simpl. autorewrite with run. simpl. calm. rewrite Hm. simpl.
  autorewrite with run. simpl. calm. rewrite Hm. simpl. calm. simpl.
  autorewrite with run. simpl. calm. simpl. autorewrite with run. simpl.
  intros [= <- _]. reflexivity.
Qed.

Lemma includes_expired : includes "Invalid or expired token" "expired" = true.
Proof. reflexivity. Qed.

(** X21. Whatever the reason for which the server refuses the access token
    of a request, a client that holds a refresh token the server redeems
    gets the request served: it refreshes, keeps the two new tokens, and the
    second request reaches the handler as the user of the refresh token. *)
Theorem client_renews_refused_session JWT_SECRET cognito handler fetch_logout
    env1 env2 env3 access rt kind c0 a toks r0 w :
  kind <> "cognito" -> quiet w ->
  authenticateToken JWT_SECRET cognito
    (match present access with Some t => bearer t | None => None end)
    (Date_now env1) = Reply r0 ->
  verify rt JWT_SECRET (Date_now env2) = Ok c0 ->
  p_type (payload c0) = Some "refresh" ->
  table w !! p_username (payload c0) = Some a ->
  refreshTokens a = Some toks -> rt ∈ toks ->
  seconds (Date_now env3) < seconds (Date_now env2) + JWT_EXPIRES_IN ->
  cognito_rejects cognito
    (access_token JWT_SECRET (id a) (p_username (payload c0)) (Date_now env2)) ->
  let k := p_username (payload c0) in
  let access' := access_token JWT_SECRET (id a) k (Date_now env2) in
  let rt' := refresh_token JWT_SECRET (id a) k (Date_now env2) in
  let user := LegacyUser (mkClaims (mkPayload (id a) k None) (seconds (Date_now env2))
                                   (seconds (Date_now env2) + JWT_EXPIRES_IN)) in
  exists w2,
    quiet w2 /\
    table w2 =
      <[k := assign a (SetRefreshTokens (filter (fun x => x <> rt) toks ++ [rt']))]>
        (table w) /\
    run (Client.makeAuthenticatedRequest
           (fun h => resolved (protected JWT_SECRET cognito handler h env1))
           (fun b => resolved (refresh JWT_SECRET env2 b))
           fetch_logout
           (fun h => resolved (protected JWT_SECRET cognito handler h env3))
           (Client.mkState access (Some rt) kind)) w =
    (Ok ((run (handler user) w2).1, Client.mkState (Some access') (Some rt') kind),
     (run (handler user) w2).2).
Proof.
  intros Hkind Q Hrej Hv Ht L T M Hlt Hc. cbv zeta.
  destruct (refresh_quiet JWT_SECRET env2 rt c0 a toks w Hv Ht L T M Q)
    as (w2 & Hrun & Q2 & Htab).
  exists w2. split; [exact Q2|]. split; [exact Htab|].
  assert (rt <> Opaque "") as Hne by (intros ->; discriminate).
  unfold Client.makeAuthenticatedRequest. cbn [Client.authToken Client.refreshToken].
  assert (run (protected JWT_SECRET cognito handler
                 (match present access with Some t => bearer t | None => None end) env1) w =
          (r0, w)) as Hfirst.
  { unfold protected. rewrite Hrej. reflexivity. }
  rewrite run_bind, run_resolved, Hfirst. cbn [fst snd].
  rewrite (present_token rt Hne).
  rewrite (bool_decide_eq_true_2 (is_Some (Some rt))) by eauto.
  assert ((status r0 =? 401) || (status r0 =? 403) = true) as ->.
  { destruct (authenticate_reply_retry _ _ _ _ _ Hrej) as [->|[-> _]]; reflexivity. }
  cbn [andb]. rewrite run_bind.
  match goal with
  | |- context [run ?p w] =>
      match p with
      | (if status r0 =? 401 then _ else _) => assert (run p w = (Ok true, w)) as ->
      end
  end.
  { destruct (authenticate_reply_retry _ _ _ _ _ Hrej) as [->|[-> ->]]; reflexivity. }
  rewrite run_bind. unfold Client.refreshAuthToken. cbn [Client.authType Client.refreshToken].
  destruct (String.eqb_spec kind "cognito") as [|_]; [contradiction|].
  rewrite (present_token rt Hne), run_try_catch, run_bind, run_resolved, Hrun.
  cbn [fst snd]. simpl. autorewrite with run. cbn [fst snd Client.authToken].
  rewrite run_resolved. unfold protected.
  rewrite (authenticate_legacy JWT_SECRET cognito _
             (access_token JWT_SECRET (id a) (p_username (payload c0)) (Date_now env2)));
    [|reflexivity|exact Hc].
  unfold legacy_jwt, access_token. rewrite verify_sign by exact Hlt.
  simpl. autorewrite with run. reflexivity.
Qed.

Lemma client_renews_refused_session_witness :
  exists w2 r,
    run (Client.makeAuthenticatedRequest
           (fun h => resolved (profile_route SECRET None h (env_at 1700090000000)))
           (fun b => resolved (refresh SECRET (env_at 1700090001000) b))
           (fun h => resolved (logout_route SECRET None h (env_at 1700090001500)))
           (fun h => resolved (profile_route SECRET None h (env_at 1700090002000)))
           c_alice) w_alice =
    (Ok (r, Client.mkState (Some (access_token SECRET (Some "alice") "alice" 1700090001000))
                           (Some (refresh_token SECRET (Some "alice") "alice" 1700090001000))
                           "legacy"), w2).
Proof.
  destruct (client_renews_refused_session SECRET None profile
              (fun h => resolved (logout_route SECRET None h (env_at 1700090001500)))
              (env_at 1700090000000) (env_at 1700090001000) (env_at 1700090002000)
              (Some a_alice) t_alice "legacy"
              (mkClaims (mkPayload (Some "alice") "alice" (Some "refresh"))
                        1700000000 (1700000000 + REFRESH_TOKEN_EXPIRES_IN))
              (default no_attrs (table w_alice !! "alice")) [t_alice]
              (failure_with 401 "Token expired" TokenExpiredError) w_alice
              ltac:(discriminate) ltac:(vm_compute; constructor)
              eq_refl eq_refl eq_refl eq_refl eq_refl
              ltac:(apply list_elem_of_singleton; reflexivity) eq_refl I)
    as (w2 & _ & _ & H).
  eexists _, _. exact H.
Defined.

Lemma verify_stays_refused t secret now1 now3 e1 :
  verify t secret now1 = Throw e1 -> now1 <= now3 ->
  exists e3, verify t secret now3 = Throw e3.
Proof.
  unfold verify. destruct t as [key c|s]; [|eauto].
  destruct (negb (String.eqb key secret)); [eauto|].
  destruct (Z.leb_spec (exp c) (seconds now1)) as [H1|H1]; [|discriminate].
  intros _ Hle. destruct (Z.leb_spec (exp c) (seconds now3)) as [H3|H3]; [eauto|].
  exfalso. unfold seconds in *. pose proof (Z.div_le_mono now1 now3 1000). lia.
Qed.

Lemma refresh_refusal JWT_SECRET env b w r w' :
  run (refresh JWT_SECRET env b) w = (r, w') -> status r <> 200 ->
  exists code msg, r = failure code msg.
Proof.
  unfold refresh. intros H Hs. explore H; answered H; try (eexists _, _; reflexivity).
  all: contradiction Hs; reflexivity.
Qed.

(** X22. A client whose access token the server refuses and whose refresh
    token the server does not redeem ends without tokens; the logout request
    it sends on the way carries the refused access token and is refused as
    well, so that nothing is cleared on the server: the table is as before. *)
Theorem client_logout_clears_nothing JWT_SECRET cognito handler fetch_url_again
    env1 env2 env3 t rt kind e1 w :
  kind <> "cognito" -> t <> Opaque "" -> rt <> Opaque "" ->
  cognito_rejects cognito t ->
  verify t JWT_SECRET (Date_now env1) = Throw e1 ->
  Date_now env1 <= Date_now env3 ->
  (forall c, verify rt JWT_SECRET (Date_now env2) = Ok c ->
             rt ∉ stored_tokens (table w) (p_username (payload c))) ->
  let out :=
    run (Client.makeAuthenticatedRequest
           (fun h => resolved (protected JWT_SECRET cognito handler h env1))
           (fun b => resolved (refresh JWT_SECRET env2 b))
           (fun h => resolved (logout_route JWT_SECRET cognito h env3))
           fetch_url_again
           (Client.mkState (Some t) (Some rt) kind)) w in
  out.1 = Ok (failure_with (if String.eqb (name e1) "TokenExpiredError" then 401 else 403)
                (if String.eqb (name e1) "TokenExpiredError"
                 then "Token expired" else "Invalid or expired token") e1,
              Client.mkState None None kind) /\
  table out.2 = table w.
Proof.
  intros Hkind Ht Hrt Hc Hv Hle Hrefuse. cbv zeta.
  destruct (verify_stays_refused _ _ _ _ _ Hv Hle) as [e3 Hv3].
  destruct (run (refresh JWT_SECRET env2 (Some rt)) w) as [r w'] eqn:Hrun.
  destruct (refresh_rejects JWT_SECRET env2 rt w r w' Hrt Hrefuse Hrun)
    as (Hs & Htab & _).
  destruct (refresh_refusal _ _ _ _ _ _ Hrun) as (code & msg & ->); [lia|].
  set (r0 := failure_with (if String.eqb (name e1) "TokenExpiredError" then 401 else 403)
               (if String.eqb (name e1) "TokenExpiredError"
                then "Token expired" else "Invalid or expired token") e1).
  assert (run (protected JWT_SECRET cognito handler (bearer t) env1) w = (r0, w)) as Hfirst.
  { unfold protected. rewrite (authenticate_legacy JWT_SECRET cognito _ t);
      [|apply present_token; exact Ht|exact Hc].
    unfold legacy_jwt. rewrite Hv. reflexivity. }
  assert (run (logout_route JWT_SECRET cognito (bearer t) env3) w' =
          (failure_with (if String.eqb (name e3) "TokenExpiredError" then 401 else 403)
             (if String.eqb (name e3) "TokenExpiredError"
              then "Token expired" else "Invalid or expired token") e3, w')) as Hlogout.
  { unfold logout_route. rewrite (authenticate_legacy JWT_SECRET cognito _ t);
      [|apply present_token; exact Ht|exact Hc].
    unfold legacy_jwt. rewrite Hv3. reflexivity. }
  unfold Client.makeAuthenticatedRequest. cbn [Client.authToken Client.refreshToken].
  rewrite (present_token t Ht), (present_token rt Hrt).
  rewrite run_bind, run_resolved, Hfirst. cbn [fst snd].
  rewrite (bool_decide_eq_true_2 (is_Some (Some rt))) by eauto.
  assert ((status r0 =? 401) || (status r0 =? 403) = true) as ->.
  { unfold r0. destruct (String.eqb (name e1) "TokenExpiredError"); reflexivity. }
  cbn [andb]. rewrite run_bind.
  match goal with
  | |- context [run ?p w] =>
      match p with
      | (if status r0 =? 401 then _ else _) => assert (run p w = (Ok true, w)) as ->
      end
  end.
  { unfold r0. destruct (String.eqb (name e1) "TokenExpiredError"); reflexivity. }
  rewrite run_bind. unfold Client.refreshAuthToken, Client.handleLogout.
  cbn [Client.authType Client.refreshToken Client.authToken].
  destruct (String.eqb_spec kind "cognito") as [|_]; [contradiction|].
  rewrite (present_token rt Hrt), (present_token t Ht).
  rewrite run_try_catch, run_bind, run_resolved, Hrun. cbn [fst snd].
  unfold failure. cbn [field js_truthy String.eqb Ascii.eqb Bool.eqb].
  autorewrite with run. rewrite run_resolved, Hlogout. cbn [fst snd].
  autorewrite with run. cbn [fst snd]. split; [reflexivity|exact Htab].
Qed.

Lemma client_logout_clears_nothing_witness :
  table (run (Client.makeAuthenticatedRequest
                (fun h => resolved (profile_route SECRET None h (env_at 1700090000000)))
                (fun b => resolved (refresh SECRET (env_at 1700090001000) b))
                (fun h => resolved (logout_route SECRET None h (env_at 1700090001500)))
                (fun h => resolved (profile_route SECRET None h (env_at 1700090002000)))
                c_alice) w_logout).2 = table w_logout.
Proof.
  apply (proj2 (client_logout_clears_nothing SECRET None profile
                  (fun h => resolved (profile_route SECRET None h (env_at 1700090002000)))
                  (env_at 1700090000000) (env_at 1700090001000) (env_at 1700090001500)
                  a_alice t_alice "legacy" TokenExpiredError w_logout
                  ltac:(discriminate) ltac:(discriminate) ltac:(discriminate)
                  I eq_refl ltac:(discriminate)
                  ltac:(intros c Hc; vm_compute in Hc; injection Hc as <-;
                        assert (stored_tokens (table w_logout) "alice" = []) as E
                          by (vm_compute; reflexivity);
                        cbn [p_username payload]; rewrite E; apply not_elem_of_nil))).
Defined.
